(** * Property-tax estimator endpoint ([ptax.py]): model and verified properties

    The handler [ptax] and its four calculators are embedded as Rocq
    functions.  Python [float] is IEEE 754 binary64; it is modelled by the
    Standard Library's [spec_float] at precision 53 and maximal exponent
    1024, whose operations are plain Gallina and round to nearest, ties to
    even, as the hardware does.  A Python [str] is modelled by [string], one
    character per code point, for text whose code points are below 256. *)

From Stdlib Require Import ZArith Lia Bool List String Ascii.
From Stdlib Require Import Floats.SpecFloat.
Import ListNotations.
Local Open Scope string_scope.
Local Open Scope Z_scope.

(** ** Binary64 arithmetic as Python uses it *)
Module F64.

Definition prec : Z := 53.
Definition emax : Z := 1024.

Definition float := spec_float.

Definition mul : float -> float -> float := SFmul prec emax.
Definition sub : float -> float -> float := SFsub prec emax.
Definition div : float -> float -> float := SFdiv prec emax.

(** Python's [<] and [>] on floats: every comparison with NaN is false. *)
Definition ltb : float -> float -> bool := SFltb.
Definition gtb (x y : float) : bool := SFltb y x.
Definition leb : float -> float -> bool := SFleb.
Definition eqb : float -> float -> bool := SFeqb.

Definition is_nan (x : float) : bool :=
  match x with S754_nan => true | _ => false end.

Definition is_finite (x : float) : bool :=
  match x with S754_zero _ | S754_finite _ _ _ => true | _ => false end.

(** The binary64 value nearest to [(-1)^neg * m * 10^e] (ties to even;
    beyond the largest finite value, infinity).  This is how CPython reads
    both a float literal of the source and the digits given to [float()].

    For a negative exponent the quotient [m / 10^(-e)] is taken with 1080
    fractional bits, and one further bit records whether the division left a
    remainder.  Every binary64 value and every midpoint of two neighbouring
    ones is a multiple of [2^(-1075)], so this sticky bit rounds as the exact
    quotient does. *)
Definition of_decimal (neg : bool) (m e : Z) : float :=
  if m <=? 0 then S754_zero neg
  else if 0 <=? e then
    binary_normalize prec emax (if neg then - (m * 10 ^ e) else m * 10 ^ e) 0 neg
  else
    let d := 10 ^ (- e) in
    let n := m * 2 ^ 1080 in
    let q := 2 * (n / d) + (if n mod d =? 0 then 0 else 1) in
    binary_normalize prec emax (if neg then - q else q) (-1081) neg.

(** [x] is a number (zero, finite or infinite) of sign bit [s]. *)
Definition has_sign (s : bool) (x : float) : Prop :=
  match x with
  | S754_zero s' | S754_infinity s' | S754_finite s' _ _ => s' = s
  | S754_nan => False
  end.

(** The mantissa of [x] fits the 53 bits of the format. *)
Definition small_mantissa (x : float) : Prop :=
  match x with
  | S754_finite _ m _ => Z.pos m < 2 ^ prec
  | _ => True
  end.

(** An integer constant of the source used in float arithmetic. *)
Definition of_int (n : Z) : float := binary_normalize prec emax n 0 false.

End F64.

(** ** Text: the Python built-ins the handler relies on *)
Module Text.

Definition code (c : ascii) : Z := Z.of_N (N_of_ascii c).

Definition is_digit (c : ascii) : bool := (48 <=? code c) && (code c <=? 57).
Definition is_upper (c : ascii) : bool := (65 <=? code c) && (code c <=? 90).

(** [Py_ISSPACE]: space, tab, line feed, vertical tab, form feed, carriage
    return. *)
Definition is_space (c : ascii) : bool :=
  (code c =? 32) || ((9 <=? code c) && (code c <=? 13)).

Definition to_lower (c : ascii) : ascii :=
  if is_upper c then ascii_of_N (Z.to_N (code c + 32)) else c.

Fixpoint lower (s : string) : string :=
  match s with
  | EmptyString => EmptyString
  | String c r => String (to_lower c) (lower r)
  end.

Fixpoint rev_onto (s acc : string) : string :=
  match s with
  | EmptyString => acc
  | String c r => rev_onto r (String c acc)
  end.

Definition rev (s : string) : string := rev_onto s EmptyString.

Fixpoint lstrip (s : string) : string :=
  match s with
  | String c r => if is_space c then lstrip r else s
  | EmptyString => EmptyString
  end.

Definition strip (s : string) : string := rev (lstrip (rev (lstrip s))).

(** Longest prefix of decimal digits, and what follows it. *)
Fixpoint span_digits (s : string) : string * string :=
  match s with
  | String c r =>
      if is_digit c then let (ds, rest) := span_digits r in (String c ds, rest)
      else (EmptyString, s)
  | EmptyString => (EmptyString, EmptyString)
  end.

Fixpoint digits_value_from (acc : Z) (ds : string) : Z :=
  match ds with
  | EmptyString => acc
  | String c r => digits_value_from (10 * acc + (code c - 48)) r
  end.

Definition digits_value (ds : string) : Z := digits_value_from 0 ds.

Definition split_sign (s : string) : bool * string :=
  match s with
  | String "-" r => (true, r)
  | String "+" r => (false, r)
  | _ => (false, s)
  end.

Definition digit_char (d : Z) : ascii := ascii_of_N (Z.to_N (48 + d)).

Fixpoint digits_onto (fuel : nat) (n : Z) (acc : string) : string :=
  match fuel with
  | O => acc
  | S k =>
      let acc' := String (digit_char (n mod 10)) acc in
      if n <? 10 then acc' else digits_onto k (n / 10) acc'
  end.

(** Decimal digits of a natural number, ["0"] for zero.  A number has no
    more decimal digits than binary ones, which bounds the recursion. *)
Definition of_Z (n : Z) : string :=
  digits_onto (S (Z.to_nat (Z.log2 n))) n EmptyString.

Fixpoint zeros (n : nat) : string :=
  match n with O => EmptyString | S k => String "0" (zeros k) end.

(** [n] written with at least [width] digits, zero-padded on the left. *)
Definition pad_Z (width : nat) (n : Z) : string :=
  let ds := of_Z n in zeros (width - String.length ds) ++ ds.

(** [re.search("[A-Z]{2}", s)]: the leftmost two consecutive upper-case
    Latin letters, as [m.group(0)] returns them. *)
Fixpoint re_search_AZ2 (s : string) : option string :=
  match s with
  | String c1 ((String c2 _) as r) =>
      if is_upper c1 && is_upper c2
      then Some (String c1 (String c2 EmptyString))
      else re_search_AZ2 r
  | _ => None
  end.

End Text.

(** ** Python's [float(str)] and fixed-point formatting *)
Module Py.
Import Text.

(** [_Py_string_to_number_with_underscores]: an underscore is dropped when
    it stands between two digits and is an error anywhere else.  [prev] is
    the character read last. *)
Fixpoint drop_underscores (prev : ascii) (s : string) : option string :=
  match s with
  | EmptyString => if Ascii.eqb prev "_" then None else Some EmptyString
  | String c r =>
      if Ascii.eqb c "_" then
        if is_digit prev then drop_underscores c r else None
      else if Ascii.eqb prev "_" && negb (is_digit c) then None
      else option_map (String c) (drop_underscores c r)
  end.

(** [_Py_parse_inf_or_nan] on a whole string: an optional sign, then
    [inf], [infinity] or [nan] in any letter case. *)
Definition parse_inf_or_nan (s : string) : option F64.float :=
  let (neg, r) := split_sign s in
  let w := lower r in
  if String.eqb w "inf" || String.eqb w "infinity" then Some (S754_infinity neg)
  else if String.eqb w "nan" then Some S754_nan
  else None.

(** The exponent part [e], [E] with an optional sign and at least one
    digit; when the digits are missing nothing is consumed. *)
Definition parse_exponent (s : string) : Z * string :=
  match s with
  | String c r =>
      if Ascii.eqb c "e" || Ascii.eqb c "E" then
        let (neg, r1) := split_sign r in
        let (ds, rest) := span_digits r1 in
        match ds with
        | EmptyString => (0, s)
        | _ => ((if neg then - digits_value ds else digits_value ds), rest)
        end
      else (0, s)
  | EmptyString => (0, s)
  end.

(** [_Py_dg_strtod] on a whole string: sign, digits with an optional
    fraction (at least one digit in all), optional exponent; correctly
    rounded.  Anything left over makes [float()] raise. *)
Definition parse_decimal (s : string) : option F64.float :=
  let (neg, s1) := split_sign s in
  let (ip, s2) := span_digits s1 in
  let (fp, s3) :=
    match s2 with
    | String "." r => span_digits r
    | _ => (EmptyString, s2)
    end in
  match ip ++ fp with
  | EmptyString => None
  | ds =>
      let (ex, s4) := parse_exponent s3 in
      match s4 with
      | EmptyString =>
          Some (F64.of_decimal neg (digits_value ds) (ex - Z.of_nat (String.length fp)))
      | _ => None
      end
  end.

(** [_PyUnicode_TransformDecimalAndSpaceToASCII] on code points below 256:
    the two white-space characters beyond ASCII, U+0085 and U+00A0, become a
    space.  (No decimal digit lies between U+0080 and U+00FF; any other
    character there is rejected, which the parsers below do by themselves.) *)
Definition fold_space (c : ascii) : ascii :=
  if (code c =? 133) || (code c =? 160) then " "%char else c.

Fixpoint to_ascii (s : string) : string :=
  match s with
  | EmptyString => EmptyString
  | String c r => String (fold_space c) (to_ascii r)
  end.

(** [float(s)] for a [str]: [None] stands for [ValueError]. *)
Definition float (s : string) : option F64.float :=
  match drop_underscores "000" (to_ascii s) with
  | None => None
  | Some t =>
      let u := strip t in
      match parse_decimal u with
      | Some x => Some x
      | None => parse_inf_or_nan u
      end
  end.

(** [format(x, ".<digits>f")]: the decimal with [digits] fractional digits
    nearest to the exact value of [x], ties to the even last digit. *)
Definition round_half_even (num den : Z) : Z :=
  let q := num / den in
  let r := num mod den in
  match 2 * r ?= den with
  | Lt => q
  | Gt => q + 1
  | Eq => if Z.even q then q else q + 1
  end.

Definition scaled (digits : nat) (m : positive) (e : Z) : Z :=
  let p := 10 ^ Z.of_nat digits in
  if 0 <=? e then Z.pos m * 2 ^ e * p
  else round_half_even (Z.pos m * p) (2 ^ (- e)).

Definition fixed (digits : nat) (n : Z) : string :=
  let p := 10 ^ Z.of_nat digits in
  of_Z (n / p) ++
  match digits with
  | O => EmptyString
  | _ => String "." (pad_Z digits (n mod p))
  end.

Definition format_f (digits : nat) (x : F64.float) : string :=
  let sign (s : bool) := if s then "-" else "" in
  match x with
  | S754_nan => "nan"
  | S754_infinity s => sign s ++ "inf"
  | S754_zero s => sign s ++ fixed digits 0
  | S754_finite s m e => sign s ++ fixed digits (scaled digits m e)
  end.

End Py.

(** ** The endpoint *)
Module Ptax.
Import Text.

(** *** Values the handler produces *)

(** What the entries of a returned dictionary hold: a [str] or a [float]. *)
Inductive value : Type :=
| Str (s : string)
| Float (x : F64.float).

(** A Python [dict] with string keys, in insertion order. *)
Definition dict : Type := list (string * value).

Definition keys (d : dict) : list string := map fst d.

(** [d.get(k)] *)
Fixpoint item (d : dict) (k : string) : option value :=
  match d with
  | [] => None
  | (k', v) :: r => if String.eqb k' k then Some v else item r k
  end.

Inductive exception : Type := ZeroDivisionError.

(** A call either returns or raises. *)
Inductive outcome (A : Type) : Type :=
| Return (a : A)
| Raise (e : exception).
Arguments Return {A} a.
Arguments Raise {A} e.

(** *** The framework objects the handler touches *)

(** [request.query]: the decoded query string, a multi-dictionary.  Reading
    an attribute gives the last value sent under that name and the empty
    string when the name was not sent at all. *)
Definition FormsDict : Type := list (string * string).

Fixpoint get (name : string) (q : FormsDict) : option string :=
  match q with
  | [] => None
  | (k, v) :: r =>
      match get name r with
      | Some w => Some w
      | None => if String.eqb k name then Some v else None
      end
  end.

Definition getattr (q : FormsDict) (name : string) : string :=
  match get name q with
  | Some v => v
  | None => EmptyString
  end.

(** [response]: the handler only ever assigns its status. *)
Record Response : Type := { status : Z }.

Definition set_status (code : Z) (r : Response) : Response :=
  {| status := code |}.

(** Truth value of a [str]: false exactly for the empty string. *)
Definition truthy (s : string) : bool :=
  match s with EmptyString => false | _ => true end.

(** *** Constants of the source *)
Definition c_1e3 : F64.float := F64.of_decimal false 1 3.
Definition c_1e12 : F64.float := F64.of_decimal false 1 12.
Definition c_0_01143 : F64.float := F64.of_decimal false 1143 (-5).
Definition c_0_0057 : F64.float := F64.of_decimal false 57 (-4).
Definition c_0_0085 : F64.float := F64.of_decimal false 85 (-4).
Definition c_0_0117 : F64.float := F64.of_decimal false 117 (-4).
Definition c_73350 : F64.float := F64.of_int 73350.
Definition c_0 : F64.float := F64.of_int 0.

(** *** Calculators *)

Definition calculator : Type := string -> F64.float -> outcome dict.

Definition california : calculator := fun address value =>
  let property_tax_effective_rate := c_0_01143 in
  let property_tax_amount :=
    Py.format_f 2 (F64.mul value property_tax_effective_rate) in
  let information :=
    "Based on the California statewide average property tax rate" in
  Return [ ("property_tax_amount", Str property_tax_amount);
           ("property_tax_effective_rate", Float property_tax_effective_rate);
           ("information", Str information) ].

Definition colorado : calculator := fun address value =>
  let property_tax_effective_rate := c_0_0057 in
  let property_tax_amount :=
    Py.format_f 2 (F64.mul value property_tax_effective_rate) in
  let information :=
    "Based on the Colorado statewide average property tax rate" in
  Return [ ("property_tax_amount", Str property_tax_amount);
           ("property_tax_effective_rate", Float property_tax_effective_rate);
           ("information", Str information) ].

(** [max(x, 0)]: the first argument unless the second is greater; the
    integer [0] it may return is used only as a factor, where it is [0.0]. *)
Definition max_0 (x : F64.float) : F64.float :=
  if F64.ltb x c_0 then c_0 else x.

(** [a / b] on floats raises when the divisor is zero. *)
Definition truediv (a b : F64.float) : outcome F64.float :=
  if F64.eqb b c_0 then Raise ZeroDivisionError else Return (F64.div a b).

Definition assessed_value (value : F64.float) : F64.float :=
  max_0 (F64.sub value c_73350).

Definition washington_dc : calculator := fun amount value =>
  let property_tax_amount := F64.mul (assessed_value value) c_0_0085 in
  match truediv property_tax_amount value with
  | Raise e => Raise e
  | Return property_tax_effective_rate =>
      let property_tax_amount := Py.format_f 2 property_tax_amount in
      let property_tax_effective_rate := Py.format_f 5 property_tax_effective_rate in
      let information :=
        "Based on DC-wide property tax rate after application of homestead exemption" in
      Return [ ("property_tax_amount", Str property_tax_amount);
               ("property_tax_effective_rate", Str property_tax_effective_rate);
               ("information", Str information) ]
  end.

Definition default : calculator := fun address value =>
  let property_tax_effective_rate := c_0_0117 in
  let property_tax_amount :=
    Py.format_f 2 (F64.mul value property_tax_effective_rate) in
  let information := "Based on the nationwide average property tax rate" in
  Return [ ("property_tax_amount", Str property_tax_amount);
           ("property_tax_effective_rate", Float property_tax_effective_rate);
           ("information", Str information) ].

Definition state_map : list (string * calculator) :=
  [ ("CA", california); ("CO", colorado); ("DC", washington_dc) ].

Fixpoint lookup (m : list (string * calculator)) (k : string) : option calculator :=
  match m with
  | [] => None
  | (k', f) :: r => if String.eqb k' k then Some f else lookup r k
  end.

(** [state_map] indexed by [state], which is [None] or a [str]; [None] is
    no key of the dictionary. *)
Definition find (m : list (string * calculator)) (state : option string)
  : option calculator :=
  match state with
  | None => None
  | Some st => lookup m st
  end.

(** Truth value of [state]; a match is two characters long, hence true. *)
Definition truthy_state (state : option string) : bool :=
  match state with
  | None => false
  | Some st => truthy st
  end.

(** *** The handler *)

Definition error (msg : string) : dict := [ ("error", Str msg) ].

Definition ptax (query : FormsDict) (response : Response)
  : outcome dict * Response :=
  let value := getattr query "value" in
  if negb (truthy value) then
    (Return (error "No value provided"), set_status 400 response)
  else
    match Py.float value with
    | None => (Return (error "Bad value provided"), set_status 400 response)
    | Some value =>
        if F64.ltb value c_1e3 || F64.gtb value c_1e12 then
          (Return (error "Value out of range"), set_status 400 response)
        else
          let address := getattr query "address" in
          let state := re_search_AZ2 address in
          if truthy address && negb (truthy_state state) then
            (Return (error "Please include two-character state (e.g., CA) in address."),
             set_status 400 response)
          else
            let fn :=
              if negb (truthy address) then default
              else
                match find state_map state with
                | None => default
                | Some f => f
                end in
            (fn address value, response)
    end.

(** The framework hands every request a fresh response, status 200. *)
Definition fresh : Response := {| status := 200 |}.

Definition GET (query : FormsDict) : outcome dict * Response :=
  ptax query fresh.

End Ptax.

(** ** The vocabulary of the specification *)
Module Spec.
Import Text Ptax.

(** The inclusive range of an acceptable property value. *)
Definition in_range (v : F64.float) : Prop :=
  F64.leb c_1e3 v = true /\ F64.leb v c_1e12 = true.

(** What the handler's two comparisons let through. *)
Definition passes_range_check (v : F64.float) : Prop :=
  F64.ltb v c_1e3 = false /\ F64.gtb v c_1e12 = false.

(** The request carries a value that the handler validates to [v]. *)
Definition validated (q : FormsDict) (v : F64.float) : Prop :=
  Py.float (getattr q "value") = Some v /\ passes_range_check v.

(** [a] has two upper-case Latin letters next to each other somewhere. *)
Definition upper_pair (c1 c2 : ascii) : Prop :=
  is_upper c1 = true /\ is_upper c2 = true.

Definition NoUpperPair (a : string) : Prop :=
  forall pre c1 c2 suf,
    a = pre ++ String c1 (String c2 suf) -> ~ upper_pair c1 c2.

(** [code] is the first substring of [a] made of two consecutive
    upper-case Latin letters: no such pair starts further left. *)
Definition FirstUpperPair (a code : string) : Prop :=
  exists pre c1 c2 suf,
    a = pre ++ String c1 (String c2 suf) /\
    code = String c1 (String c2 EmptyString) /\
    upper_pair c1 c2 /\
    forall pre' d1 d2 suf',
      a = pre' ++ String d1 (String d2 suf') ->
      (String.length pre' < String.length pre)%nat ->
      ~ upper_pair d1 d2.

(** The calculator registry as the specification words it. *)
Definition calculator_for (code : string) : calculator :=
  if String.eqb code "CA" then california
  else if String.eqb code "CO" then colorado
  else if String.eqb code "DC" then washington_dc
  else default.

Definition calculators : list calculator :=
  [ california; colorado; washington_dc; default ].

Definition result_fields : list string :=
  [ "property_tax_amount"; "property_tax_effective_rate"; "information" ].

(** The four validation failures and their messages. *)
Inductive failure : Type :=
| MissingValue
| InvalidValue
| ValueOutOfRange
| MalformedAddress.

Definition message (f : failure) : string :=
  match f with
  | MissingValue => "No value provided"
  | InvalidValue => "Bad value provided"
  | ValueOutOfRange => "Value out of range"
  | MalformedAddress => "Please include two-character state (e.g., CA) in address."
  end.

Definition bad_request (f : failure) : outcome dict * Response :=
  (Return (error (message f)), {| status := 400 |}).

Definition out_of_range (v : F64.float) : Prop :=
  F64.ltb v c_1e3 = true \/ F64.gtb v c_1e12 = true.

(** The checks in their order: each failure presupposes that the checks
    before it passed.  A parsed value is out of range when it is not within
    1000 and 1e12, bounds included.  The address check concerns a non-empty
    address. *)
Inductive Fails (q : FormsDict) : failure -> Prop :=
| Fails_missing :
    getattr q "value" = EmptyString ->
    Fails q MissingValue
| Fails_invalid :
    getattr q "value" <> EmptyString ->
    Py.float (getattr q "value") = None ->
    Fails q InvalidValue
| Fails_range v :
    getattr q "value" <> EmptyString ->
    Py.float (getattr q "value") = Some v ->
    ~ in_range v ->
    Fails q ValueOutOfRange
| Fails_address v :
    getattr q "value" <> EmptyString ->
    Py.float (getattr q "value") = Some v ->
    in_range v ->
    getattr q "address" <> EmptyString ->
    NoUpperPair (getattr q "address") ->
    Fails q MalformedAddress.

(** The address check as first stated: any address parameter that was
    sent, the empty one included. *)
Definition address_sent_without_state (q : FormsDict) : Prop :=
  exists a, get "address" q = Some a /\ NoUpperPair a.

(** [s] is a numeral for [n / 10^digits]: decimal digits, a point when
    [digits] is not zero, and then exactly [digits] further digits. *)
Fixpoint all_digits (s : string) : bool :=
  match s with
  | EmptyString => true
  | String c r => is_digit c && all_digits r
  end.

Definition numeral (digits : nat) (n : Z) (s : string) : Prop :=
  match digits with
  | O => s <> EmptyString /\ all_digits s = true /\ digits_value s = n
  | S _ =>
      exists ip fp,
        s = ip ++ String "." fp /\
        ip <> EmptyString /\ all_digits ip = true /\ all_digits fp = true /\
        String.length fp = digits /\
        digits_value ip * 10 ^ Z.of_nat digits + digits_value fp = n
  end.

(** The exact value [m * 2^e] of a finite float, scaled by [10^digits],
    lies within one half of [n]. *)
Definition nearest_scaled (digits : nat) (m : positive) (e : Z) (n : Z) : Prop :=
  let p := 10 ^ Z.of_nat digits in
  if 0 <=? e then n = Z.pos m * 2 ^ e * p
  else 2 * Z.abs (n * 2 ^ (- e) - Z.pos m * p) <= 2 ^ (- e).

(** [s] is the fixed-point numeral with [digits] decimals nearest to [x];
    an infinity or a NaN is written by name. *)
Definition rounded_to (digits : nat) (x : F64.float) (s : string) : Prop :=
  match x with
  | S754_finite sg m e =>
      exists n t, 0 <= n /\ nearest_scaled digits m e n /\ numeral digits n t /\
                  s = (if sg then "-" else "") ++ t
  | S754_zero sg => exists t, numeral digits 0 t /\ s = (if sg then "-" else "") ++ t
  | S754_infinity sg => s = (if sg then "-" else "") ++ "inf"
  | S754_nan => s = "nan"
  end.

(** [s] is the numeral with [digits] decimals, without sign, nearest to
    [x], a finite value that is not negative. *)
Definition unsigned_numeral (digits : nat) (x : F64.float) (s : string) : Prop :=
  exists n,
    0 <= n /\ numeral digits n s /\
    match x with
    | S754_zero false => n = 0
    | S754_finite false m e => nearest_scaled digits m e n
    | _ => False
    end.

(** Every character of [s] satisfies [P]. *)
Fixpoint all_chars (P : ascii -> bool) (s : string) : bool :=
  match s with
  | EmptyString => true
  | String c r => P c && all_chars P r
  end.

Fixpoint one_of (w : string) (c : ascii) : bool :=
  match w with
  | EmptyString => false
  | String d r => Ascii.eqb d c || one_of r c
  end.

(** The characters a text that [float()] accepts is made of: digits, signs,
    the point, the exponent letter, the underscore, white space, and the
    letters of [inf], [infinity] and [nan] in either case. *)
Definition float_syntax (c : ascii) : bool :=
  is_digit c || one_of "+-._eE" c || is_space c || one_of "infinitya" (to_lower c).

Definition float_char (c : ascii) : bool := float_syntax (Py.fold_space c).

End Spec.

(** * Properties *)

(** ** Facts of binary64 arithmetic *)
Module F64Facts.
Import F64.

Lemma iter_pos_invariant {A : Type} (P : A -> Prop) (f : A -> A) :
  (forall x, P x -> P (f x)) ->
  forall n x, P x -> P (iter_pos f n x).
Proof.
  intros Hf n; induction n as [n IH | n IH | ]; intros x Hx; simpl.
  - apply IH, IH, Hf, Hx.
  - apply IH, IH, Hx.
  - apply Hf, Hx.
Qed.

Lemma shr_1_nonneg mrs : 0 <= shr_m mrs -> 0 <= shr_m (shr_1 mrs).
Proof.
  destruct mrs as [m r s]; simpl; intros Hm.
  destruct m as [ | [p | p | ] | p ]; simpl; lia.
Qed.

Lemma shr_nonneg mrs e n : 0 <= shr_m mrs -> 0 <= shr_m (fst (shr mrs e n)).
Proof.
  intros Hm; destruct n as [ | p | p ]; simpl; trivial.
  apply (iter_pos_invariant (fun r => 0 <= shr_m r)); auto using shr_1_nonneg.
Qed.

Lemma shr_fexp_nonneg m e l :
  0 <= m -> 0 <= shr_m (fst (shr_fexp prec emax m e l)).
Proof.
  intros Hm; unfold shr_fexp; apply shr_nonneg.
  destruct l as [ | [ | | ] ]; simpl; exact Hm.
Qed.

Lemma round_nearest_even_nonneg m l : 0 <= m -> 0 <= round_nearest_even m l.
Proof.
  intros Hm; destruct l as [ | [ | | ] ]; simpl; try lia.
  destruct (Z.even m); lia.
Qed.

(** Rounding a non-negative mantissa never yields NaN and keeps the sign
    it was given. *)
Lemma binary_round_aux_sign s m e l :
  0 <= m -> has_sign s (binary_round_aux prec emax s m e l).
Proof.
  intros Hm; unfold binary_round_aux.
  pose proof (shr_fexp_nonneg m e l Hm) as H1.
  destruct (shr_fexp prec emax m e l) as [mrs1 e1]; simpl in H1.
  pose proof (shr_fexp_nonneg _ e1 loc_Exact
                (round_nearest_even_nonneg _ (loc_of_shr_record mrs1) H1)) as H2.
  destruct (shr_fexp prec emax _ e1 loc_Exact) as [mrs2 e2]; simpl in H2.
  destruct (shr_m mrs2) as [ | p | p ]; simpl; try reflexivity; try lia.
  destruct (_ <=? _); simpl; reflexivity.
Qed.

Lemma binary_round_sign s m e : has_sign s (binary_round prec emax s m e).
Proof.
  unfold binary_round.
  destruct (shl_align m e _) as [mz ez].
  apply binary_round_aux_sign; lia.
Qed.

Lemma binary_normalize_not_nan m e sz :
  is_nan (binary_normalize prec emax m e sz) = false.
Proof.
  destruct m as [ | p | p ]; simpl; trivial.
  - pose proof (binary_round_sign false p e) as H.
    destruct (binary_round prec emax false p e); simpl in *; tauto.
  - pose proof (binary_round_sign true p e) as H.
    destruct (binary_round prec emax true p e); simpl in *; tauto.
Qed.

(** *** Rounding: the size of the mantissa and of the exponent *)

Lemma digits2_pos_size p : digits2_pos p = Pos.size p.
Proof. induction p as [ p IH | p IH | ]; simpl; congruence. Qed.

Lemma Zdigits2_log2 p : Zdigits2 (Z.pos p) = Z.succ (Z.log2 (Z.pos p)).
Proof.
  destruct p as [ p | p | ]; simpl; trivial;
    rewrite digits2_pos_size, Pos2Z.inj_succ; reflexivity.
Qed.

Lemma Zdigits2_bound m k : 0 <= m < 2 ^ k -> 0 <= k -> 0 <= Zdigits2 m <= k.
Proof.
  intros [Hm Hlt] Hk; destruct m as [ | p | p ]; try lia; [ simpl; lia | ].
  rewrite Zdigits2_log2.
  apply Z.log2_lt_pow2 in Hlt; [ | lia ].
  pose proof (Z.log2_nonneg (Z.pos p)); lia.
Qed.

Lemma Zdigits2_gt m : 0 <= m -> m < 2 ^ Zdigits2 m.
Proof.
  intros Hm; destruct m as [ | p | p ]; try lia; [ simpl; lia | ].
  rewrite Zdigits2_log2; apply Z.log2_spec; lia.
Qed.

Lemma shr_1_div2 mrs : 0 <= shr_m mrs -> shr_m (shr_1 mrs) = shr_m mrs / 2.
Proof.
  destruct mrs as [m r s]; simpl; intros Hm; rewrite <- Z.div2_div.
  destruct m as [ | [ p | p | ] | p ]; try reflexivity; lia.
Qed.

Lemma iter_shr_1_div n : forall mrs,
  0 <= shr_m mrs -> shr_m (iter_pos shr_1 n mrs) = shr_m mrs / 2 ^ Z.pos n.
Proof.
  assert (Hinv : forall k mrs, 0 <= shr_m mrs -> 0 <= shr_m (iter_pos shr_1 k mrs))
    by (intros k; apply (iter_pos_invariant (fun r => 0 <= shr_m r));
        auto using shr_1_nonneg).
  assert (Hpow : forall k, 0 < 2 ^ Z.pos k) by (intros; apply Z.pow_pos_nonneg; lia).
  induction n as [ n IH | n IH | ]; intros mrs Hm; simpl iter_pos.
  - rewrite IH, IH, shr_1_div2 by auto using shr_1_nonneg.
    pose proof (Hpow n).
    replace (Z.pos n~1) with (1 + (Z.pos n + Z.pos n)) by lia.
    rewrite !Z.pow_add_r by lia; change (2 ^ 1) with 2.
    rewrite !Z.div_div by lia.
    f_equal; ring.
  - rewrite IH, IH by auto.
    pose proof (Hpow n).
    replace (Z.pos n~0) with (Z.pos n + Z.pos n) by lia.
    rewrite !Z.pow_add_r by lia.
    rewrite !Z.div_div by lia.
    reflexivity.
  - apply shr_1_div2, Hm.
Qed.

Lemma shr_record_of_loc_m m l : shr_m (shr_record_of_loc m l) = m.
Proof. destruct l as [ | [ | | ] ]; reflexivity. Qed.

(** One rounding shift: the exponent moves up to the one the format asks
    for, and what is left of the mantissa fits 53 bits. *)
Lemma shr_fexp_spec m e l :
  0 <= m ->
  snd (shr_fexp prec emax m e l) = Z.max e (fexp prec emax (Zdigits2 m + e)) /\
  0 <= shr_m (fst (shr_fexp prec emax m e l)) < 2 ^ prec.
Proof.
  intros Hm.
  pose proof (Zdigits2_gt m Hm) as Hd.
  pose proof (Zdigits2_bound m _ (conj Hm Hd)) as Hd0.
  assert (Hd1 : 0 <= Zdigits2 m) by (destruct m; simpl; lia).
  unfold shr_fexp, shr.
  set (d := Zdigits2 m) in *.
  assert (Hf : fexp prec emax (d + e) = Z.max (d + e - 53) (-1074)) by reflexivity.
  destruct (fexp prec emax (d + e) - e) as [ | n | n ] eqn:Hn; cbn [fst snd].
  - rewrite shr_record_of_loc_m; split; [ lia | split; trivial ].
    eapply Z.lt_le_trans; [ exact Hd | ].
    apply Z.pow_le_mono_r; unfold prec; lia.
  - rewrite iter_shr_1_div, shr_record_of_loc_m by (rewrite shr_record_of_loc_m; exact Hm).
    assert (Hp : 0 < 2 ^ Z.pos n) by (apply Z.pow_pos_nonneg; lia).
    split; [ lia | split; [ apply Z.div_pos; lia | ] ].
    apply Z.div_lt_upper_bound; trivial.
    rewrite <- Z.pow_add_r by (unfold prec; lia).
    eapply Z.lt_le_trans; [ exact Hd | ].
    apply Z.pow_le_mono_r; unfold prec; lia.
  - rewrite shr_record_of_loc_m; split; [ lia | split; trivial ].
    eapply Z.lt_le_trans; [ exact Hd | ].
    apply Z.pow_le_mono_r; unfold prec; lia.
Qed.

Lemma round_nearest_even_le m l : m <= round_nearest_even m l <= m + 1.
Proof.
  destruct l as [ | [ | | ] ]; simpl; try lia.
  destruct (Z.even m); lia.
Qed.

(** What rounding returns has a mantissa of at most 53 bits. *)
Lemma binary_round_aux_small s m e l :
  0 <= m -> small_mantissa (binary_round_aux prec emax s m e l).
Proof.
  intros Hm; unfold binary_round_aux.
  destruct (shr_fexp_spec m e l Hm) as [_ [H1 _]].
  destruct (shr_fexp prec emax m e l) as [mrs1 e1]; cbn [fst] in H1.
  pose proof (round_nearest_even_le (shr_m mrs1) (loc_of_shr_record mrs1)) as Hr.
  destruct (shr_fexp_spec (round_nearest_even (shr_m mrs1) (loc_of_shr_record mrs1))
              e1 loc_Exact ltac:(lia)) as [_ H2].
  destruct (shr_fexp prec emax _ e1 loc_Exact) as [mrs2 e2]; cbn [fst] in H2.
  destruct (shr_m mrs2) as [ | p | p ]; simpl; trivial.
  destruct (_ <=? _); simpl; trivial; apply H2.
Qed.

(** Rounding a mantissa below [2^k] at an exponent small enough does not
    overflow. *)
Lemma binary_round_aux_finite s m e l k :
  0 <= m < 2 ^ k -> 0 <= k ->
  Z.max e (k + e - prec) + 1 <= emax - prec ->
  is_finite (binary_round_aux prec emax s m e l) = true.
Proof.
  intros Hm Hk He; unfold binary_round_aux.
  destruct (shr_fexp_spec m e l (proj1 Hm)) as [He1 H1].
  pose proof (Zdigits2_bound m k Hm Hk) as Hd.
  destruct (shr_fexp prec emax m e l) as [mrs1 e1]; cbn [fst snd] in H1, He1.
  pose proof (round_nearest_even_le (shr_m mrs1) (loc_of_shr_record mrs1)) as Hr.
  set (m1 := round_nearest_even (shr_m mrs1) (loc_of_shr_record mrs1)) in *.
  assert (Hm1 : 0 <= m1 < 2 ^ 54).
  { split; [ lia | ].
    change (2 ^ 54) with (2 * 2 ^ prec); lia. }
  destruct (shr_fexp_spec m1 e1 loc_Exact (proj1 Hm1)) as [He2 H2].
  pose proof (Zdigits2_bound m1 54 Hm1 ltac:(lia)) as Hd1.
  destruct (shr_fexp prec emax m1 e1 loc_Exact) as [mrs2 e2]; cbn [fst snd] in H2, He2.
  assert (Hle : (e2 <=? emax - prec) = true).
  { apply Z.leb_le. subst e2 e1.
    unfold fexp, SpecFloat.emin, emax, prec in *; lia. }
  rewrite Hle.
  destruct (shr_m mrs2) as [ | p | p ]; simpl; trivial; lia.
Qed.

Lemma binary_round_small s m e : small_mantissa (binary_round prec emax s m e).
Proof.
  unfold binary_round.
  destruct (shl_align m e _) as [mz ez].
  apply binary_round_aux_small; lia.
Qed.

Lemma binary_normalize_small m e sz :
  small_mantissa (binary_normalize prec emax m e sz).
Proof.
  destruct m as [ | p | p ]; simpl; trivial; apply binary_round_small.
Qed.

Lemma of_decimal_small neg m e : small_mantissa (of_decimal neg m e).
Proof.
  unfold of_decimal.
  destruct (m <=? 0); [ exact I | ].
  destruct (0 <=? e); apply binary_normalize_small.
Qed.

(** *** Comparisons *)

Lemma compare_antisym x y c :
  SFcompare x y = Some c -> SFcompare y x = Some (CompOpp c).
Proof.
  destruct x as [sx | sx | | sx mx ex], y as [sy | sy | | sy my ey];
    simpl; try discriminate;
    try (destruct sx); try (destruct sy);
    intros H; injection H as <-; try reflexivity;
    rewrite (Z.compare_antisym ex ey);
    destruct (ex ?= ey); simpl; try reflexivity;
    rewrite ?CompOpp_involutive;
    first [ rewrite (Pos.compare_cont_antisym mx my Eq)
          | rewrite (Pos.compare_cont_antisym my mx Eq) ];
    reflexivity.
Qed.

Lemma leb_not_gt a x : leb a x = true -> ltb x a = false.
Proof.
  unfold leb, ltb, SFleb, SFltb.
  destruct (SFcompare a x) as [c | ] eqn:E; try discriminate.
  rewrite (compare_antisym _ _ _ E).
  destruct c; simpl; congruence.
Qed.

Lemma leb_not_nan_r a x : leb a x = true -> is_nan x = false.
Proof.
  unfold leb, SFleb.
  destruct a, x; simpl; trivial; discriminate.
Qed.

Lemma leb_not_nan_l x a : leb x a = true -> is_nan x = false.
Proof.
  unfold leb, SFleb.
  destruct x, a; simpl; trivial; discriminate.
Qed.

(** On numbers the order is total. *)
Lemma not_ltb_leb x a :
  is_nan x = false -> is_nan a = false -> ltb x a = false -> leb a x = true.
Proof.
  unfold ltb, leb, SFltb, SFleb; intros Hx Ha.
  destruct (SFcompare x a) as [c | ] eqn:E.
  - rewrite (compare_antisym _ _ _ E); destruct c; simpl; congruence.
  - destruct x, a; simpl in *; discriminate.
Qed.

(** Zero compares below any number that is not negative. *)
Lemma leb_zero_sign x : has_sign false x -> leb (S754_zero false) x = true.
Proof.
  destruct x as [s | s | | s m e]; simpl; try tauto; intros ->; reflexivity.
Qed.

Lemma leb_zero_zero s : leb (S754_zero false) (S754_zero s) = true.
Proof. reflexivity. Qed.

End F64Facts.

(** ** The state-code scan *)
Module TextFacts.
Import Text Spec.

Lemma re_search_AZ2_step c1 c2 r :
  re_search_AZ2 (String c1 (String c2 r)) =
  if is_upper c1 && is_upper c2
  then Some (String c1 (String c2 EmptyString))
  else re_search_AZ2 (String c2 r).
Proof. reflexivity. Qed.

Lemma upper_pair_andb c1 c2 :
  upper_pair c1 c2 <-> is_upper c1 && is_upper c2 = true.
Proof. unfold upper_pair; rewrite andb_true_iff; tauto. Qed.

Lemma not_upper_pair_andb c1 c2 :
  ~ upper_pair c1 c2 -> is_upper c1 && is_upper c2 = false.
Proof.
  rewrite upper_pair_andb; destruct (is_upper c1 && is_upper c2); congruence.
Qed.

(** A string that continues with two characters after [pre]. *)
Lemma app_two_shape pre c1 c2 suf :
  exists x r, pre ++ String c1 (String c2 suf) = String x (String (fst r) (snd r)).
Proof.
  destruct pre as [ | a [ | b pre ] ]; simpl.
  - exists c1, (c2, suf); reflexivity.
  - exists a, (c1, String c2 suf); reflexivity.
  - exists a, (b, pre ++ String c1 (String c2 suf)); reflexivity.
Qed.

Lemma re_search_AZ2_first a code :
  FirstUpperPair a code -> re_search_AZ2 a = Some code.
Proof.
  intros (pre & c1 & c2 & suf & Ha & -> & Hup & Hfirst).
  revert a Ha Hfirst; induction pre as [ | c pre IH ]; intros a Ha Hfirst; subst a.
  - simpl append. rewrite re_search_AZ2_step.
    apply upper_pair_andb in Hup; rewrite Hup; reflexivity.
  - change (String c pre ++ String c1 (String c2 suf))
      with (String c (pre ++ String c1 (String c2 suf))) in *.
    destruct (app_two_shape pre c1 c2 suf) as (x & [y r] & E); simpl in E.
    rewrite E, re_search_AZ2_step.
    rewrite not_upper_pair_andb.
    + rewrite <- E; apply IH; trivial.
      intros pre' d1 d2 suf' E' Hlen.
      apply (Hfirst (String c pre') d1 d2 suf').
      * simpl; rewrite E'; reflexivity.
      * simpl; apply -> PeanoNat.Nat.succ_lt_mono; exact Hlen.
    + apply (Hfirst EmptyString c x (String y r)).
      * simpl; rewrite E; reflexivity.
      * simpl; apply PeanoNat.Nat.lt_0_succ.
Qed.

Lemma re_search_AZ2_some a code :
  re_search_AZ2 a = Some code -> FirstUpperPair a code.
Proof.
  revert code; induction a as [ | c r IH ]; intros code; [ discriminate | ].
  destruct r as [ | x r ]; [ discriminate | ].
  rewrite re_search_AZ2_step.
  destruct (is_upper c && is_upper x) eqn:Hcx.
  - intros [= <-]. exists EmptyString, c, x, r; repeat split.
    + apply andb_true_iff in Hcx; tauto.
    + apply andb_true_iff in Hcx; tauto.
    + intros pre' d1 d2 suf' _ Hlen; simpl in Hlen.
      exfalso; apply (PeanoNat.Nat.nlt_0_r _ Hlen).
  - intros Hr; destruct (IH code Hr) as (pre & c1 & c2 & suf & E & -> & Hup & Hfirst).
    exists (String c pre), c1, c2, suf; repeat split; try apply Hup.
    + simpl; rewrite E; reflexivity.
    + intros pre' d1 d2 suf' E' Hlen.
      destruct pre' as [ | c' pre' ]; simpl in E'.
      * injection E' as <- <- _. rewrite upper_pair_andb, Hcx; discriminate.
      * injection E' as _ E'. apply (Hfirst pre' d1 d2 suf' E').
        simpl in Hlen; apply PeanoNat.Nat.succ_lt_mono; exact Hlen.
Qed.

Lemma re_search_AZ2_none a :
  re_search_AZ2 a = None <-> NoUpperPair a.
Proof.
  split.
  - intros Hnone pre; revert a Hnone.
    induction pre as [ | c pre IH ]; intros a Hnone c1 c2 suf ->.
    + simpl in Hnone.
      rewrite upper_pair_andb.
      destruct (is_upper c1 && is_upper c2); discriminate.
    + change (String c pre ++ String c1 (String c2 suf))
        with (String c (pre ++ String c1 (String c2 suf))) in Hnone.
      destruct (app_two_shape pre c1 c2 suf) as (x & [y r] & E); simpl in E.
      rewrite E, re_search_AZ2_step in Hnone.
      destruct (is_upper c && is_upper x); [ discriminate | ].
      rewrite <- E in Hnone.
      apply (IH _ Hnone c1 c2 suf eq_refl).
  - induction a as [ | c r IH ]; intros Hno; [ reflexivity | ].
    destruct r as [ | x r ]; [ reflexivity | ].
    rewrite re_search_AZ2_step, not_upper_pair_andb.
    + apply IH. intros pre c1 c2 suf E.
      apply (Hno (String c pre) c1 c2 suf). simpl; rewrite E; reflexivity.
    + apply (Hno EmptyString c x r); reflexivity.
Qed.

Lemma first_upper_pair_truthy a code :
  FirstUpperPair a code -> a <> EmptyString /\ Ptax.truthy code = true.
Proof.
  intros (pre & c1 & c2 & suf & -> & -> & _); split; [ | reflexivity ].
  destruct pre; discriminate.
Qed.

End TextFacts.

(** ** Fixed-point formatting rounds to nearest *)
Module PyFacts.
Import Text Py Spec.

Lemma float_empty : Py.float EmptyString = None.
Proof. reflexivity. Qed.

(** What [float()] returns is a binary64 value: its mantissa fits. *)
Lemma parse_decimal_small s v : parse_decimal s = Some v -> F64.small_mantissa v.
Proof.
  unfold parse_decimal.
  destruct (split_sign s) as [neg s1].
  destruct (span_digits s1) as [ip s2].
  destruct (match s2 with String "."%char r => span_digits r | _ => (EmptyString, s2) end)
    as [fp s3].
  destruct (ip ++ fp) as [ | c ds ]; [ discriminate | ].
  destruct (parse_exponent s3) as [ex s4].
  destruct s4; [ | discriminate ].
  intros [= <-]; apply F64Facts.of_decimal_small.
Qed.

Lemma float_small s v : Py.float s = Some v -> F64.small_mantissa v.
Proof.
  unfold Py.float.
  destruct (drop_underscores _ _) as [ t | ]; [ | discriminate ].
  cbv zeta.
  destruct (parse_decimal (strip t)) as [ x | ] eqn:Hd.
  - intros [= <-]; apply (parse_decimal_small _ _ Hd).
  - unfold parse_inf_or_nan.
    destruct (split_sign (strip t)) as [neg r].
    destruct (_ || _); [ intros [= <-]; exact I | ].
    destruct (String.eqb _ _); [ intros [= <-]; exact I | discriminate ].
Qed.

Lemma round_half_even_nearest num den :
  0 < den -> 2 * Z.abs (round_half_even num den * den - num) <= den.
Proof.
  intros Hden; unfold round_half_even.
  pose proof (Z.div_mod num den ltac:(lia)) as Hdm.
  pose proof (Z.mod_pos_bound num den Hden) as Hr.
  set (q := num / den) in *; set (r := num mod den) in *.
  assert (Hq : q * den - num = - r) by lia.
  assert (Hq1 : (q + 1) * den - num = den - r) by lia.
  destruct (2 * r ?= den) eqn:Hc;
    [ apply Z.compare_eq in Hc | rewrite Z.compare_lt_iff in Hc
    | rewrite Z.compare_gt_iff in Hc ];
    try destruct (Z.even q); rewrite ?Hq, ?Hq1; lia.
Qed.

Lemma round_half_even_nonneg num den :
  0 <= num -> 0 < den -> 0 <= round_half_even num den.
Proof.
  intros Hnum Hden; unfold round_half_even.
  pose proof (Z.div_pos num den Hnum Hden).
  destruct (2 * (num mod den) ?= den); try destruct (Z.even _); lia.
Qed.

Lemma scaled_nearest digits m e :
  0 <= scaled digits m e /\ nearest_scaled digits m e (scaled digits m e).
Proof.
  unfold nearest_scaled, scaled.
  assert (Hp : 0 < 10 ^ Z.of_nat digits) by (apply Z.pow_pos_nonneg; lia).
  destruct (0 <=? e) eqn:He.
  - apply Z.leb_le in He; split; [ | reflexivity ].
    assert (0 < 2 ^ e) by (apply Z.pow_pos_nonneg; lia).
    repeat apply Z.mul_nonneg_nonneg; lia.
  - apply Z.leb_gt in He.
    assert (Hd : 0 < 2 ^ (- e)) by (apply Z.pow_pos_nonneg; lia).
    split.
    + apply round_half_even_nonneg; trivial. apply Z.mul_nonneg_nonneg; lia.
    + apply round_half_even_nearest; exact Hd.
Qed.

(** *** Decimal digits written and read back *)

Lemma code_digit_char d : 0 <= d < 10 -> code (digit_char d) = 48 + d.
Proof.
  intros Hd.
  assert (H : d = 0 \/ d = 1 \/ d = 2 \/ d = 3 \/ d = 4 \/
              d = 5 \/ d = 6 \/ d = 7 \/ d = 8 \/ d = 9) by lia.
  repeat (destruct H as [ -> | H ]; [ reflexivity | ]); subst d; reflexivity.
Qed.

Lemma is_digit_digit_char d : 0 <= d < 10 -> is_digit (digit_char d) = true.
Proof.
  intros Hd; unfold is_digit; rewrite (code_digit_char d Hd).
  apply andb_true_iff; split; apply Z.leb_le; lia.
Qed.

Lemma digits_value_from_app a s t :
  digits_value_from a (s ++ t) = digits_value_from (digits_value_from a s) t.
Proof. revert a; induction s as [ | c s IH ]; intros a; simpl; auto. Qed.

Lemma all_digits_app s t :
  all_digits (s ++ t) = all_digits s && all_digits t.
Proof.
  induction s as [ | c s IH ]; simpl; trivial.
  rewrite IH, andb_assoc; reflexivity.
Qed.

Lemma append_assoc s t u : (s ++ t) ++ u = s ++ (t ++ u).
Proof. induction s as [ | c s IH ]; simpl; congruence. Qed.

Lemma append_empty_r s : s ++ EmptyString = s.
Proof. induction s as [ | c s IH ]; simpl; congruence. Qed.

Lemma length_app s t :
  String.length (s ++ t) = (String.length s + String.length t)%nat.
Proof. induction s as [ | c s IH ]; simpl; auto. Qed.

(** [digits_onto] puts the digits of [n] before [acc]: at least one, no more
    than [n] needs, and they read back as [n]. *)
Lemma digits_onto_spec fuel : forall n acc (k : nat),
  0 <= n < 10 ^ Z.of_nat fuel -> 0 <= n < 10 ^ Z.of_nat k -> (1 <= fuel)%nat ->
  exists ds,
    digits_onto fuel n acc = ds ++ acc /\
    ds <> EmptyString /\ all_digits ds = true /\
    (String.length ds <= Nat.max 1 k)%nat /\
    forall a, digits_value_from a ds = a * 10 ^ Z.of_nat (String.length ds) + n.
Proof.
  induction fuel as [ | fuel IH ]; intros n acc k Hn Hk Hfuel; [ lia | ].
  assert (Hmod : 0 <= n mod 10 < 10) by (apply Z.mod_pos_bound; lia).
  cbn [digits_onto]; destruct (n <? 10) eqn:Hlt.
  - apply Z.ltb_lt in Hlt.
    exists (String (digit_char (n mod 10)) EmptyString); repeat split.
    + discriminate.
    + simpl; rewrite is_digit_digit_char; trivial.
    + cbn [String.length]; lia.
    + intros a; cbn [digits_value_from String.length].
      rewrite code_digit_char, Z.mod_small; lia.
  - apply Z.ltb_ge in Hlt.
    assert (Hk2 : (2 <= k)%nat).
    { destruct k as [ | [ | k ] ]; try lia; simpl in Hk; lia. }
    assert (Hf2 : (1 <= fuel)%nat).
    { destruct fuel; try lia; simpl in Hn; lia. }
    assert (Hdiv : forall j : nat, (1 <= j)%nat -> n < 10 ^ Z.of_nat j ->
                   0 <= n / 10 < 10 ^ Z.of_nat (j - 1)).
    { intros j Hj Hnj; split; [ apply Z.div_pos; lia | ].
      apply Z.div_lt_upper_bound; try lia.
      replace (Z.of_nat j) with (Z.succ (Z.of_nat (j - 1))) in Hnj by lia.
      rewrite Z.pow_succ_r in Hnj; lia. }
    destruct (IH (n / 10) (String (digit_char (n mod 10)) acc) (k - 1)%nat)
      as (ds & Heq & Hne & Hall & Hlen & Hval); trivial.
    { replace fuel with (S fuel - 1)%nat by lia; apply Hdiv; lia. }
    { apply Hdiv; lia. }
    exists (ds ++ String (digit_char (n mod 10)) EmptyString); repeat split.
    + rewrite Heq, append_assoc; reflexivity.
    + destruct ds; [ congruence | discriminate ].
    + rewrite all_digits_app, Hall; simpl; rewrite is_digit_digit_char; trivial.
    + rewrite length_app; cbn [String.length]; lia.
    + intros a; rewrite digits_value_from_app, Hval, length_app.
      cbn [digits_value_from String.length].
      rewrite code_digit_char; trivial.
      replace (Z.of_nat (String.length ds + 1)) with (Z.succ (Z.of_nat (String.length ds))) by lia.
      rewrite Z.pow_succ_r by lia.
      pose proof (Z.div_mod n 10 ltac:(lia)); lia.
Qed.

Lemma of_Z_spec n (k : nat) :
  0 <= n < 10 ^ Z.of_nat k ->
  of_Z n <> EmptyString /\ all_digits (of_Z n) = true /\
  (String.length (of_Z n) <= Nat.max 1 k)%nat /\ digits_value (of_Z n) = n.
Proof.
  intros Hn; unfold of_Z.
  destruct (digits_onto_spec (S (Z.to_nat (Z.log2 n))) n EmptyString k)
    as (ds & Heq & Hne & Hall & Hlen & Hval); trivial; try lia.
  - split; [ lia | ].
    destruct (Z.eq_dec n 0) as [ -> | Hn0 ]; [ reflexivity | ].
    destruct (Z.log2_spec n ltac:(lia)) as [_ Hlog].
    rewrite Nat2Z.inj_succ, Z2Nat.id by apply Z.log2_nonneg.
    eapply Z.lt_le_trans; [ exact Hlog | ].
    apply Z.pow_le_mono_l; split; [ lia | lia ].
  - rewrite Heq, append_empty_r.
    repeat split; trivial.
    unfold digits_value; rewrite Hval; lia.
Qed.

Lemma zeros_spec k :
  all_digits (zeros k) = true /\ String.length (zeros k) = k /\
  forall s, digits_value (zeros k ++ s) = digits_value s.
Proof.
  induction k as [ | k (Hall & Hlen & Hval) ]; simpl; repeat split; auto.
Qed.

Lemma pad_Z_spec (width : nat) n :
  (1 <= width)%nat -> 0 <= n < 10 ^ Z.of_nat width ->
  all_digits (pad_Z width n) = true /\ String.length (pad_Z width n) = width /\
  digits_value (pad_Z width n) = n.
Proof.
  intros Hw Hn; unfold pad_Z; cbv zeta.
  destruct (of_Z_spec n width Hn) as (_ & Hall & Hlen & Hval).
  destruct (zeros_spec (width - String.length (of_Z n))) as (Hzall & Hzlen & Hzval).
  repeat split.
  - rewrite all_digits_app, Hzall, Hall; reflexivity.
  - rewrite length_app, Hzlen; lia.
  - rewrite Hzval; exact Hval.
Qed.

(** [fixed] writes a numeral for [n / 10^digits]. *)
Lemma fixed_numeral digits n : 0 <= n -> numeral digits n (fixed digits n).
Proof.
  intros Hn; unfold fixed; cbv zeta.
  assert (Hp : 0 < 10 ^ Z.of_nat digits) by (apply Z.pow_pos_nonneg; lia).
  assert (Hq : 0 <= n / 10 ^ Z.of_nat digits) by (apply Z.div_pos; lia).
  assert (Hbig : 0 <= n / 10 ^ Z.of_nat digits
                 < 10 ^ Z.of_nat (S (Z.to_nat (n / 10 ^ Z.of_nat digits)))).
  { split; trivial.
    rewrite Nat2Z.inj_succ, Z2Nat.id by trivial.
    set (x := n / 10 ^ Z.of_nat digits) in *.
    pose proof (Z.pow_gt_lin_r 10 (Z.succ x) ltac:(lia)); lia. }
  destruct (of_Z_spec _ _ Hbig) as (Hne & Hall & _ & Hval).
  destruct digits as [ | d ].
  - change (10 ^ Z.of_nat 0) with 1 in *; rewrite Z.div_1_r in *.
    rewrite append_empty_r.
    repeat split; trivial.
  - destruct (pad_Z_spec (S d) (n mod 10 ^ Z.of_nat (S d))) as (Hfall & Hflen & Hfval);
      [ lia | apply Z.mod_pos_bound; lia | ].
    exists (of_Z (n / 10 ^ Z.of_nat (S d))), (pad_Z (S d) (n mod 10 ^ Z.of_nat (S d))).
    repeat split; trivial.
    rewrite Hval, Hfval.
    pose proof (Z.div_mod n (10 ^ Z.of_nat (S d)) ltac:(lia)); lia.
Qed.

(** [format_f] gives the numeral nearest to the exact value of its
    argument, whatever the argument. *)
Lemma format_f_rounded digits x : rounded_to digits x (format_f digits x).
Proof.
  destruct x as [s | s | | s m e]; simpl; try reflexivity.
  - exists (fixed digits 0); split; [ apply fixed_numeral; lia | reflexivity ].
  - destruct (scaled_nearest digits m e) as [H0 Hn].
    exists (scaled digits m e), (fixed digits (scaled digits m e)).
    repeat split; trivial. apply fixed_numeral, H0.
Qed.

End PyFacts.

(** ** The handler *)
Module PtaxFacts.
Import F64 F64Facts Text TextFacts Ptax Spec.

Lemma c_1e3_eq : c_1e3 = S754_finite false 8796093022208000 (-43).
Proof. vm_compute; reflexivity. Qed.

Lemma c_1e12_eq : c_1e12 = S754_finite false 8192000000000000 (-13).
Proof. vm_compute; reflexivity. Qed.

Lemma c_73350_eq : c_73350 = S754_finite false 5040573618585600 (-36).
Proof. vm_compute; reflexivity. Qed.

Lemma c_0_0085_eq : c_0_0085 = S754_finite false 4899916394579100 (-59).
Proof. vm_compute; reflexivity. Qed.

Lemma c_0_eq : c_0 = S754_zero false.
Proof. reflexivity. Qed.

(** *** What the range check lets through *)

Lemma in_range_passes v : in_range v -> passes_range_check v.
Proof.
  intros [Hlo Hhi]; split; unfold gtb; apply leb_not_gt; assumption.
Qed.

Lemma in_range_finite v : in_range v -> exists m e, v = S754_finite false m e.
Proof.
  intros [Hlo Hhi]; rewrite c_1e3_eq in Hlo; rewrite c_1e12_eq in Hhi.
  destruct v as [s | [ | ] | | [ | ] m e]; try discriminate; eauto.
Qed.

(** NaN is the one value outside the range that the check lets through. *)
Lemma passes_range_check_cases v :
  passes_range_check v -> v = S754_nan \/ (is_finite v = true /\ in_range v).
Proof.
  intros [Hlo Hhi]; unfold gtb in Hhi.
  destruct (is_nan v) eqn:Hnan.
  - left; destruct v; try discriminate; reflexivity.
  - right.
    assert (Hr : in_range v).
    { split; apply not_ltb_leb; trivial. }
    split; trivial.
    destruct (in_range_finite v Hr) as (m & e & ->); reflexivity.
Qed.

Lemma passes_range_check_nonzero v :
  passes_range_check v -> eqb v c_0 = false.
Proof.
  intros [Hlo _]; rewrite c_1e3_eq in Hlo.
  destruct v as [s | [ | ] | | [ | ] m e]; try discriminate; reflexivity.
Qed.

(** *** The Washington DC calculator on a value in range *)

Lemma sub_finite_not_nan s m e s' m' e' :
  is_nan (sub (S754_finite s m e) (S754_finite s' m' e')) = false.
Proof. apply binary_normalize_not_nan. Qed.

Lemma max_0_nonneg x : is_nan x = false -> leb c_0 (max_0 x) = true.
Proof.
  intros Hx; unfold max_0.
  destruct (ltb x c_0) eqn:Hlt; [ reflexivity | ].
  apply not_ltb_leb; trivial.
Qed.

Lemma assessed_value_nonneg v :
  in_range v -> leb c_0 (assessed_value v) = true.
Proof.
  intros Hv; destruct (in_range_finite v Hv) as (m & e & ->).
  unfold assessed_value; apply max_0_nonneg.
  rewrite c_73350_eq; apply sub_finite_not_nan.
Qed.

Lemma mul_nonneg x m e :
  leb c_0 x = true -> leb c_0 (mul x (S754_finite false m e)) = true.
Proof.
  rewrite c_0_eq; destruct x as [s | [ | ] | | [ | ] mx ex]; try discriminate;
    intros _; try reflexivity.
  apply leb_zero_sign.
  apply (binary_round_aux_sign false); lia.
Qed.

(** *** A flat-rate amount on a value in range does not overflow *)

Lemma c_0_0117_eq : c_0_0117 = S754_finite false 6744590801950055 (-59).
Proof. vm_compute; reflexivity. Qed.

Lemma in_range_exponent m e : in_range (S754_finite false m e) -> e <= -13.
Proof.
  intros [_ H]; rewrite c_1e12_eq in H.
  unfold leb, SFleb, SFcompare in H.
  destruct (Z.compare_spec e (-13)) as [ Hc | Hc | Hc ]; try discriminate H; lia.
Qed.

Lemma mul_in_range_finite v mc ec :
  in_range v -> small_mantissa v -> Z.pos mc < 2 ^ prec -> ec <= 0 ->
  is_finite (mul v (S754_finite false mc ec)) = true.
Proof.
  intros Hr Hs Hmc Hec.
  destruct (in_range_finite v Hr) as (m & e & ->).
  pose proof (in_range_exponent m e Hr) as He.
  unfold small_mantissa in Hs.
  unfold mul, SFmul; cbn [xorb].
  apply (binary_round_aux_finite _ _ _ _ 106); try lia.
  - split; [ lia | ].
    rewrite Pos2Z.inj_mul.
    change (2 ^ 106) with (2 ^ prec * 2 ^ prec).
    apply Z.mul_lt_mono_nonneg; lia.
  - unfold emax, prec; lia.
Qed.

(** *** Every calculator returns the three fields *)

Lemma california_fields a v :
  exists d, california a v = Return d /\ keys d = result_fields.
Proof. eexists; split; reflexivity. Qed.

Lemma colorado_fields a v :
  exists d, colorado a v = Return d /\ keys d = result_fields.
Proof. eexists; split; reflexivity. Qed.

Lemma default_fields a v :
  exists d, default a v = Return d /\ keys d = result_fields.
Proof. eexists; split; reflexivity. Qed.

Lemma washington_dc_fields a v :
  eqb v c_0 = false ->
  exists d, washington_dc a v = Return d /\ keys d = result_fields.
Proof.
  intros Hv; unfold washington_dc, truediv; rewrite Hv.
  eexists; split; reflexivity.
Qed.

Lemma calculator_for_fields code a v :
  eqb v c_0 = false ->
  exists d, calculator_for code a v = Return d /\ keys d = result_fields.
Proof.
  intros Hv; unfold calculator_for.
  destruct (String.eqb code "CA"); [ apply california_fields | ].
  destruct (String.eqb code "CO"); [ apply colorado_fields | ].
  destruct (String.eqb code "DC");
    [ apply washington_dc_fields, Hv | apply default_fields ].
Qed.

(** The dictionary lookup and the specification's case list agree. *)
Lemma state_map_calculator_for code :
  match find state_map (Some code) with
  | None => default
  | Some f => f
  end = calculator_for code.
Proof.
  unfold calculator_for, find, state_map; cbn [lookup].
  rewrite (String.eqb_sym "CA"), (String.eqb_sym "CO"), (String.eqb_sym "DC").
  destruct (String.eqb code "CA"); trivial.
  destruct (String.eqb code "CO"); trivial.
  destruct (String.eqb code "DC"); trivial.
Qed.

(** *** The handler once the value is validated *)

Lemma float_some_truthy s v : Py.float s = Some v -> truthy s = true.
Proof. destruct s; [ discriminate | reflexivity ]. Qed.

Lemma truthy_false s : truthy s = false <-> s = EmptyString.
Proof. destruct s; simpl; split; congruence. Qed.

Lemma truthy_true s : truthy s = true <-> s <> EmptyString.
Proof. destruct s; simpl; split; congruence. Qed.

Lemma ptax_validated q r v :
  validated q v ->
  ptax q r =
  let address := getattr q "address" in
  if truthy address && negb (truthy_state (re_search_AZ2 address)) then
    (Return (error "Please include two-character state (e.g., CA) in address."),
     set_status 400 r)
  else
    ((if negb (truthy address) then default
      else match find state_map (re_search_AZ2 address) with
           | None => default
           | Some f => f
           end) address v, r).
Proof.
  intros [Hf [Hlo Hhi]]; unfold ptax; cbv zeta.
  rewrite (float_some_truthy _ _ Hf), Hf, Hlo, Hhi; reflexivity.
Qed.

Lemma ptax_no_address q r v :
  validated q v -> getattr q "address" = EmptyString ->
  ptax q r = (default EmptyString v, r).
Proof.
  intros Hv Ha; rewrite (ptax_validated q r v Hv); cbv zeta; rewrite Ha.
  reflexivity.
Qed.

Lemma getattr_absent q name : get name q = None -> getattr q name = EmptyString.
Proof. unfold getattr; intros ->; reflexivity. Qed.

Lemma getattr_present q name s : get name q = Some s -> getattr q name = s.
Proof. unfold getattr; intros ->; reflexivity. Qed.

Lemma first_upper_pair_unique a code code' :
  FirstUpperPair a code -> FirstUpperPair a code' -> code' = code.
Proof.
  intros H H'; apply re_search_AZ2_first in H, H'; congruence.
Qed.

(** *** The handler, case by case *)

Lemma ptax_missing q : getattr q "value" = EmptyString -> GET q = bad_request MissingValue.
Proof. intros H; unfold GET, ptax; cbv zeta; rewrite H; reflexivity. Qed.

Lemma ptax_invalid q :
  getattr q "value" <> EmptyString -> Py.float (getattr q "value") = None ->
  GET q = bad_request InvalidValue.
Proof.
  intros Hne Hf; unfold GET, ptax; cbv zeta.
  apply truthy_true in Hne; rewrite Hne, Hf; reflexivity.
Qed.

Lemma out_of_range_orb v :
  out_of_range v <-> ltb v c_1e3 || gtb v c_1e12 = true.
Proof. unfold out_of_range; rewrite orb_true_iff; tauto. Qed.

Lemma passes_range_check_orb v :
  passes_range_check v <-> ltb v c_1e3 || gtb v c_1e12 = false.
Proof. unfold passes_range_check; rewrite orb_false_iff; tauto. Qed.

Lemma ptax_out_of_range q v :
  Py.float (getattr q "value") = Some v -> out_of_range v ->
  GET q = bad_request ValueOutOfRange.
Proof.
  intros Hf Hr; unfold GET, ptax; cbv zeta.
  apply out_of_range_orb in Hr.
  rewrite (float_some_truthy _ _ Hf), Hf, Hr; reflexivity.
Qed.

Lemma ptax_malformed_address q v :
  validated q v -> getattr q "address" <> EmptyString ->
  NoUpperPair (getattr q "address") ->
  GET q = bad_request MalformedAddress.
Proof.
  intros Hv Hne Hno; unfold GET; rewrite (ptax_validated q fresh v Hv); cbv zeta.
  apply truthy_true in Hne; apply re_search_AZ2_none in Hno.
  rewrite Hne, Hno; reflexivity.
Qed.

Lemma ptax_served q v :
  validated q v ->
  getattr q "address" = EmptyString \/ (exists code, re_search_AZ2 (getattr q "address") = Some code) ->
  status (snd (GET q)) = 200.
Proof.
  intros Hv Ha; unfold GET; rewrite (ptax_validated q fresh v Hv); cbv zeta.
  destruct Ha as [-> | (code & Hs)]; [ reflexivity | ].
  rewrite Hs. apply re_search_AZ2_some, first_upper_pair_truthy in Hs.
  destruct Hs as [Hne Hcode]; apply truthy_true in Hne.
  unfold truthy_state; rewrite Hne, Hcode; reflexivity.
Qed.

(** Apart from NaN, the two comparisons of the handler reject exactly the
    values that are not within 1000 and 1e12. *)
Lemma not_in_range_out_of_range v :
  v <> S754_nan -> ~ in_range v -> out_of_range v.
Proof.
  intros Hnan Hnot; apply out_of_range_orb.
  destruct (ltb v c_1e3 || gtb v c_1e12) eqn:Hr; trivial.
  apply passes_range_check_orb, passes_range_check_cases in Hr.
  destruct Hr as [ Hr | [_ Hr] ]; contradiction.
Qed.

Lemma passes_range_check_in_range v :
  v <> S754_nan -> passes_range_check v -> in_range v.
Proof.
  intros Hnan Hp; destruct (passes_range_check_cases v Hp) as [ H | [_ H] ];
    [ contradiction | exact H ].
Qed.

Lemma fails_bad_request q f :
  Py.float (getattr q "value") <> Some S754_nan ->
  Fails q f -> GET q = bad_request f.
Proof.
  intros Hnan [ H | Hne H | v Hne Hf Hr | v Hne Hf Hr Ha Hno ].
  - apply ptax_missing, H.
  - apply ptax_invalid; assumption.
  - apply (ptax_out_of_range q v Hf), not_in_range_out_of_range; trivial.
    intros ->; contradiction.
  - apply (ptax_malformed_address q v); trivial.
    split; [ exact Hf | apply in_range_passes, Hr ].
Qed.

(** A request whose value is not NaN either fails one check or is served. *)
Lemma ptax_cases q :
  Py.float (getattr q "value") <> Some S754_nan ->
  (exists f, Fails q f) \/ status (snd (GET q)) = 200.
Proof.
  intros Hnan.
  destruct (getattr q "value") as [ | c s ] eqn:Hval.
  { left; exists MissingValue; constructor; exact Hval. }
  assert (Hne : getattr q "value" <> EmptyString) by (rewrite Hval; discriminate).
  rewrite <- Hval in Hnan.
  destruct (Py.float (getattr q "value")) as [ v | ] eqn:Hf.
  2:{ left; exists InvalidValue; constructor; assumption. }
  assert (Hv0 : v <> S754_nan) by (intros ->; apply Hnan; reflexivity).
  destruct (ltb v c_1e3 || gtb v c_1e12) eqn:Hr.
  { left; exists ValueOutOfRange; apply (Fails_range q v); trivial.
    intros Hin; apply in_range_passes, passes_range_check_orb in Hin; congruence. }
  assert (Hv : validated q v) by (split; [ exact Hf | apply passes_range_check_orb, Hr ]).
  destruct (getattr q "address") as [ | c' s' ] eqn:Ha.
  { right; apply (ptax_served q v Hv); left; exact Ha. }
  destruct (re_search_AZ2 (getattr q "address")) as [ code | ] eqn:Hs.
  - right; apply (ptax_served q v Hv); right; exists code; exact Hs.
  - left; exists MalformedAddress; apply (Fails_address q v); trivial.
    + apply passes_range_check_in_range; [ exact Hv0 | apply Hv ].
    + rewrite Ha; discriminate.
    + apply re_search_AZ2_none, Hs.
Qed.

(** *** The handler reads two attributes and nothing else *)

Lemma ptax_same_parameters q1 q2 r :
  getattr q1 "address" = getattr q2 "address" ->
  getattr q1 "value" = getattr q2 "value" ->
  ptax q1 r = ptax q2 r.
Proof. intros Ha Hv; unfold ptax; cbv zeta; rewrite Ha, Hv; reflexivity. Qed.

Lemma ptax_body_any_response q r r' : fst (ptax q r) = fst (ptax q r').
Proof.
  unfold ptax; cbv zeta.
  destruct (negb (truthy (getattr q "value"))); [ reflexivity | ].
  destruct (Py.float (getattr q "value")) as [ v | ]; [ | reflexivity ].
  destruct (ltb v c_1e3 || gtb v c_1e12); [ reflexivity | ].
  destruct (truthy (getattr q "address") && _); reflexivity.
Qed.

End PtaxFacts.

(** ** The claims *)

Import Text Ptax Spec.

(** C1.  On a request whose value is validated and whose address holds a
    state code, the code is the first pair of consecutive upper-case Latin
    letters of the address (there is exactly one such first pair, and the
    address is not empty); the handler answers 200 with what the calculator
    of that code returns on the address and the value: [california] for CA,
    [colorado] for CO, [washington_dc] for DC, and [default] for every other
    code.  That calculator returns the three result fields. *)
Theorem ptax_dispatch_by_state_code (q : FormsDict) (v : F64.float) (code : string) :
  validated q v ->
  FirstUpperPair (getattr q "address") code ->
  getattr q "address" <> EmptyString /\
  (forall code', FirstUpperPair (getattr q "address") code' -> code' = code) /\
  GET q = (calculator_for code (getattr q "address") v, {| status := 200 |}) /\
  (exists d, calculator_for code (getattr q "address") v = Return d /\
             keys d = result_fields) /\
  calculator_for "CA" = california /\
  calculator_for "CO" = colorado /\
  calculator_for "DC" = washington_dc /\
  (code <> "CA" -> code <> "CO" -> code <> "DC" -> calculator_for code = default).
Proof.
  intros Hv Hfirst.
  destruct (TextFacts.first_upper_pair_truthy _ _ Hfirst) as [Hne Hcode].
  split; [ exact Hne | ].
  split; [ intros code' H'; eapply PtaxFacts.first_upper_pair_unique; eauto | ].
  split.
  - unfold GET; rewrite (PtaxFacts.ptax_validated q fresh v Hv); cbv zeta.
    rewrite (TextFacts.re_search_AZ2_first _ _ Hfirst).
    apply PtaxFacts.truthy_true in Hne; rewrite Hne.
    unfold truthy_state; rewrite Hcode.
    cbn [negb andb]. rewrite PtaxFacts.state_map_calculator_for. reflexivity.
  - split.
    + apply PtaxFacts.calculator_for_fields, PtaxFacts.passes_range_check_nonzero, Hv.
    + repeat split.
      intros Hca Hco Hdc; unfold calculator_for.
      apply String.eqb_neq in Hca, Hco, Hdc; rewrite Hca, Hco, Hdc; reflexivity.
Qed.

Lemma ptax_dispatch_by_state_code_witness :
  let q := [ ("address", "Somewhere, ZZ"); ("value", "100000") ] in
  let v := S754_finite false 6871947673600000 (-36) in
  validated q v /\
  FirstUpperPair "Somewhere, ZZ" "ZZ" /\
  GET q = (default "Somewhere, ZZ" v, {| status := 200 |}).
Proof.
  intros q v.
  assert (Hv : validated q v) by (repeat split; vm_compute; reflexivity).
  assert (Hf : FirstUpperPair (getattr q "address") "ZZ")
    by (apply TextFacts.re_search_AZ2_some; vm_compute; reflexivity).
  split; [ exact Hv | split; [ exact Hf | ] ].
  exact (proj1 (proj2 (proj2 (ptax_dispatch_by_state_code q v "ZZ" Hv Hf)))).
Defined.

(** C2.  On a request without an address parameter whose value parses to a
    [v] with 1000 <= v <= 1e12, the handler answers 200 with the output of
    [default]: the amount is [v * 0.0117] written with two decimals, a
    product that is finite and whose nearest two-decimal numeral the amount
    is; the rate is the float 0.0117; the information names the nationwide
    average. *)
Theorem ptax_no_address_default (q : FormsDict) (v : F64.float) :
  get "address" q = None ->
  Py.float (getattr q "value") = Some v ->
  in_range v ->
  GET q = (default EmptyString v, {| status := 200 |}) /\
  default EmptyString v =
    Return [ ("property_tax_amount", Str (Py.format_f 2 (F64.mul v c_0_0117)));
             ("property_tax_effective_rate", Float (F64.of_decimal false 117 (-4)));
             ("information", Str "Based on the nationwide average property tax rate") ] /\
  F64.is_finite (F64.mul v c_0_0117) = true /\
  rounded_to 2 (F64.mul v c_0_0117) (Py.format_f 2 (F64.mul v c_0_0117)).
Proof.
  intros Ha Hf Hr.
  split; [ | split; [ reflexivity | split; [ | apply PyFacts.format_f_rounded ] ] ].
  - apply PtaxFacts.ptax_no_address.
    + split; [ exact Hf | apply PtaxFacts.in_range_passes, Hr ].
    + apply PtaxFacts.getattr_absent, Ha.
  - rewrite PtaxFacts.c_0_0117_eq.
    apply PtaxFacts.mul_in_range_finite; trivial.
    + apply (PyFacts.float_small _ _ Hf).
    + reflexivity.
    + discriminate.
Qed.

Lemma ptax_no_address_default_witness :
  let q := [ ("value", "1000") ] in
  let v := S754_finite false 8796093022208000 (-43) in
  get "address" q = None /\ Py.float (getattr q "value") = Some v /\ in_range v /\
  GET q = (Return [ ("property_tax_amount", Str "11.70");
                    ("property_tax_effective_rate", Float c_0_0117);
                    ("information", Str "Based on the nationwide average property tax rate") ],
           {| status := 200 |}).
Proof.
  intros q v.
  assert (Ha : get "address" q = None) by reflexivity.
  assert (Hf : Py.float (getattr q "value") = Some v) by (vm_compute; reflexivity).
  assert (Hr : in_range v) by (split; vm_compute; reflexivity).
  split; [ exact Ha | split; [ exact Hf | split; [ exact Hr | ] ] ].
  rewrite (proj1 (ptax_no_address_default q v Ha Hf Hr)).
  vm_compute; reflexivity.
Defined.

(** C3 (as amended).  On a request whose value is not read as NaN, the
    handler answers 400 exactly when one of the four checks fails, taken in
    order: value absent or empty, "No value provided"; value not parseable
    as a decimal number, "Bad value provided"; parsed value out of range,
    that is not within 1000 and 1e12, "Value out of range"; and, the value
    being in range, an address that is provided, not empty, and holds no two
    consecutive upper-case letters, the state-code message.  The value errors
    come first.  What the handler does with NaN is left out here. *)
Theorem ptax_bad_request_iff (q : FormsDict) :
  Py.float (getattr q "value") <> Some S754_nan ->
  (status (snd (GET q)) = 400 <-> exists f, Fails q f) /\
  (forall f, Fails q f -> GET q = (Return (error (message f)), {| status := 400 |})) /\
  (status (snd (GET q)) = 400 \/ status (snd (GET q)) = 200).
Proof.
  intros Hnan.
  assert (Hbad : forall f, Fails q f -> GET q = bad_request f)
    by (intros f; apply PtaxFacts.fails_bad_request, Hnan).
  split; [ split | split ].
  - intros H400; destruct (PtaxFacts.ptax_cases q Hnan) as [ Hf | H200 ]; trivial.
    rewrite H200 in H400; discriminate.
  - intros (f & Hf); rewrite (Hbad f Hf); reflexivity.
  - exact Hbad.
  - destruct (PtaxFacts.ptax_cases q Hnan) as [ (f & Hf) | H200 ];
      [ left | right; exact H200 ].
    rewrite (Hbad f Hf); reflexivity.
Qed.

Lemma ptax_bad_request_iff_witness :
  let q := [ ("address", "123 Main St"); ("value", "100000") ] in
  Py.float (getattr q "value") <> Some S754_nan /\
  Fails q MalformedAddress /\
  GET q =
    (Return (error "Please include two-character state (e.g., CA) in address."),
     {| status := 400 |}).
Proof.
  intros q.
  assert (Hnan : Py.float (getattr q "value") <> Some S754_nan)
    by (vm_compute; discriminate).
  assert (Hf : Fails q MalformedAddress).
  { apply (Fails_address q (S754_finite false 6871947673600000 (-36))).
    - discriminate.
    - vm_compute; reflexivity.
    - split; vm_compute; reflexivity.
    - discriminate.
    - apply TextFacts.re_search_AZ2_none; reflexivity. }
  split; [ exact Hnan | split; [ exact Hf | ] ].
  exact (proj1 (proj2 (ptax_bad_request_iff q Hnan)) MalformedAddress Hf).
Defined.

(** C3 as first stated fails: an address parameter that is sent empty holds
    no state code, yet the request is served. *)
Lemma empty_address_not_rejected :
  ~ (address_sent_without_state [ ("address", ""); ("value", "5000") ] ->
     status (snd (GET [ ("address", ""); ("value", "5000") ])) = 400).
Proof.
  intros H.
  assert (Hs : address_sent_without_state [ ("address", ""); ("value", "5000") ]).
  { exists EmptyString; split; [ reflexivity | ].
    apply TextFacts.re_search_AZ2_none; reflexivity. }
  specialize (H Hs); vm_compute in H; discriminate.
Qed.

(** C7.  Once the value parses to [v], the handler answers 400 "Value out
    of range" exactly when [v < 1000] or [v > 1e12]; at [v = 1000] and at
    [v = 1e12] neither comparison holds and that answer is not given. *)
Theorem ptax_out_of_range_iff (q : FormsDict) (v : F64.float) :
  Py.float (getattr q "value") = Some v ->
  (GET q = (Return (error "Value out of range"), {| status := 400 |}) <->
   F64.ltb v c_1e3 = true \/ F64.gtb v c_1e12 = true) /\
  (v = c_1e3 \/ v = c_1e12 ->
   GET q <> (Return (error "Value out of range"), {| status := 400 |})).
Proof.
  intros Hf.
  assert (Hiff : GET q = bad_request ValueOutOfRange <-> out_of_range v).
  { split; [ | apply (PtaxFacts.ptax_out_of_range q v Hf) ].
    intros HG.
    destruct (F64.ltb v c_1e3 || F64.gtb v c_1e12) eqn:Hr;
      [ apply PtaxFacts.out_of_range_orb, Hr | exfalso ].
    assert (Hv : validated q v)
      by (split; [ exact Hf | apply PtaxFacts.passes_range_check_orb, Hr ]).
    unfold GET in HG; rewrite (PtaxFacts.ptax_validated q fresh v Hv) in HG.
    cbv zeta in HG.
    destruct (truthy (getattr q "address") && _) in HG.
    - discriminate HG.
    - apply (f_equal (fun r => status (snd r))) in HG; discriminate HG. }
  split; [ exact Hiff | ].
  intros Hb HG; apply Hiff in HG.
  destruct Hb as [ -> | -> ], HG as [ H | H ]; vm_compute in H; discriminate H.
Qed.

Lemma ptax_out_of_range_iff_witness :
  let q := [ ("value", "999.99") ] in
  Py.float (getattr q "value") = Some (S754_finite false 8796005061277778 (-43)) /\
  GET q = (Return (error "Value out of range"), {| status := 400 |}).
Proof.
  intros q.
  assert (Hf : Py.float (getattr q "value")
               = Some (S754_finite false 8796005061277778 (-43)))
    by (vm_compute; reflexivity).
  split; [ exact Hf | ].
  apply (proj1 (ptax_out_of_range_iff q _ Hf)).
  left; vm_compute; reflexivity.
Defined.

(** C9.  The answer is a function of the [address] and [value] parameters
    alone: two requests that agree on both get the same status and the same
    body, whatever else their query strings hold; and the body does not
    depend on the state in which the handler finds the response object. *)
Theorem ptax_deterministic (q1 q2 : FormsDict) :
  getattr q1 "address" = getattr q2 "address" ->
  getattr q1 "value" = getattr q2 "value" ->
  GET q1 = GET q2 /\
  (forall r, fst (ptax q1 r) = fst (GET q2)).
Proof.
  intros Ha Hv; split.
  - apply PtaxFacts.ptax_same_parameters; assumption.
  - intros r; unfold GET.
    rewrite (PtaxFacts.ptax_same_parameters q1 q2 r Ha Hv).
    apply PtaxFacts.ptax_body_any_response.
Qed.

Lemma ptax_deterministic_witness :
  let q1 := [ ("value", "5000"); ("page", "2"); ("address", "Boulder, CO") ] in
  let q2 := [ ("address", "Austin, TX"); ("value", "1"); ("address", "Boulder, CO");
              ("value", "5000") ] in
  getattr q1 "address" = getattr q2 "address" /\
  getattr q1 "value" = getattr q2 "value" /\
  GET q1 = GET q2.
Proof.
  intros q1 q2.
  assert (Ha : getattr q1 "address" = getattr q2 "address") by reflexivity.
  assert (Hv : getattr q1 "value" = getattr q2 "value") by reflexivity.
  split; [ exact Ha | split; [ exact Hv | ] ].
  exact (proj1 (ptax_deterministic q1 q2 Ha Hv)).
Defined.

(** C10.  With a validated value, an address parameter sent as the empty
    string is answered as a request without address is: 200 and the output
    of [default], not the 400 of a malformed address, although the empty
    address holds no state code. *)
Theorem ptax_empty_address_as_absent (q : FormsDict) (v : F64.float) :
  validated q v ->
  get "address" q = Some EmptyString ->
  GET q = (default EmptyString v, {| status := 200 |}) /\
  (exists d, default EmptyString v = Return d /\ keys d = result_fields) /\
  (forall q', get "address" q' = None ->
              getattr q' "value" = getattr q "value" -> GET q' = GET q) /\
  address_sent_without_state q /\
  GET q <> bad_request MalformedAddress.
Proof.
  intros Hv Ha.
  assert (Hg : getattr q "address" = EmptyString)
    by (apply PtaxFacts.getattr_present, Ha).
  assert (HG : GET q = (default EmptyString v, {| status := 200 |}))
    by (apply PtaxFacts.ptax_no_address; assumption).
  split; [ exact HG | ].
  split; [ apply PtaxFacts.default_fields | ].
  split; [ | split ].
  - intros q' Ha' Hv'.
    apply PtaxFacts.ptax_same_parameters; trivial.
    rewrite Hg; apply PtaxFacts.getattr_absent, Ha'.
  - exists EmptyString; split; [ exact Ha | ].
    apply TextFacts.re_search_AZ2_none; reflexivity.
  - rewrite HG; intros H.
    apply (f_equal (fun r => status (snd r))) in H; discriminate H.
Qed.

Lemma ptax_empty_address_as_absent_witness :
  let q := [ ("address", ""); ("value", "5000") ] in
  let v := S754_finite false 5497558138880000 (-40) in
  validated q v /\ get "address" q = Some EmptyString /\
  GET q = (default EmptyString v, {| status := 200 |}).
Proof.
  intros q v.
  assert (Hv : validated q v) by (repeat split; vm_compute; reflexivity).
  assert (Ha : get "address" q = Some EmptyString) by reflexivity.
  split; [ exact Hv | split; [ exact Ha | ] ].
  exact (proj1 (ptax_empty_address_as_absent q v Hv Ha)).
Defined.

(** C8.  On a value [v] with 1000 <= v <= 1e12 each of the four
    calculators returns, and what it returns has exactly the fields
    [property_tax_amount], [property_tax_effective_rate] and [information].
    In [washington_dc] the divisor [v] is not zero, so the division does not
    raise, and [max(v - 73350, 0)] and the amount computed from it are not
    negative. *)
Theorem calculators_total (address : string) (v : F64.float) :
  in_range v ->
  (forall fn, In fn calculators ->
     exists d, fn address v = Return d /\ keys d = result_fields) /\
  F64.eqb v c_0 = false /\
  (exists rate, truediv (F64.mul (assessed_value v) c_0_0085) v = Return rate) /\
  F64.leb c_0 (assessed_value v) = true /\
  F64.leb c_0 (F64.mul (assessed_value v) c_0_0085) = true.
Proof.
  intros Hr.
  assert (Hnz : F64.eqb v c_0 = false)
    by (apply PtaxFacts.passes_range_check_nonzero, PtaxFacts.in_range_passes, Hr).
  assert (Hav : F64.leb c_0 (assessed_value v) = true)
    by (apply PtaxFacts.assessed_value_nonneg, Hr).
  split; [ | split; [ exact Hnz | split; [ | split; [ exact Hav | ] ] ] ].
  - intros fn [ <- | [ <- | [ <- | [ <- | [] ] ] ] ].
    + apply PtaxFacts.california_fields.
    + apply PtaxFacts.colorado_fields.
    + apply PtaxFacts.washington_dc_fields, Hnz.
    + apply PtaxFacts.default_fields.
  - unfold truediv; rewrite Hnz; eexists; reflexivity.
  - rewrite PtaxFacts.c_0_0085_eq; apply PtaxFacts.mul_nonneg, Hav.
Qed.

Lemma calculators_total_witness :
  let v := S754_finite false 8589934592000000 (-34) in
  in_range v /\
  washington_dc "DC" v =
    Return [ ("property_tax_amount", Str "3626.53");
             ("property_tax_effective_rate", Str "0.00725");
             ("information",
              Str "Based on DC-wide property tax rate after application of homestead exemption") ] /\
  F64.leb c_0 (assessed_value v) = true.
Proof.
  intros v.
  assert (Hr : in_range v) by (split; vm_compute; reflexivity).
  pose proof (calculators_total "DC" v Hr) as (Hall & _ & _ & Hav & _).
  split; [ exact Hr | split; [ | exact Hav ] ].
  destruct (Hall washington_dc) as (d & Hd & _); [ simpl; tauto | ].
  vm_compute; reflexivity.
Defined.

(** C6 (the code departs from the claim).  The value ["nan"] is accepted:
    [float()] reads it as NaN, both range comparisons are false on NaN, and
    the request is answered 200 by [default] with the amount ["nan"].  NaN is
    neither finite nor within 1000 and 1e12, and it is the only such value
    the check lets through. *)
Theorem ptax_accepts_nan :
  validated [ ("value", "nan") ] S754_nan /\
  F64.is_finite S754_nan = false /\
  ~ in_range S754_nan /\
  GET [ ("value", "nan") ] =
    (Return [ ("property_tax_amount", Str "nan");
              ("property_tax_effective_rate", Float c_0_0117);
              ("information", Str "Based on the nationwide average property tax rate") ],
     {| status := 200 |}) /\
  (forall v, passes_range_check v ->
             v = S754_nan \/ (F64.is_finite v = true /\ in_range v)).
Proof.
  split; [ repeat split; vm_compute; reflexivity | ].
  split; [ reflexivity | ].
  split; [ intros [H _]; vm_compute in H; discriminate H | ].
  split; [ vm_compute; reflexivity | apply PtaxFacts.passes_range_check_cases ].
Qed.

(** C4 (as amended).  The request with address "1600 Pennsylvania Ave,
    Washington, DC" and value "500000" is answered 200 with the amount
    "3626.53", which is [(500000 - 73350) * 0.0085] written with two
    decimals, and the rate "0.00725", a string of five decimals. *)
Theorem ptax_washington_dc_example :
  GET [ ("address", "1600 Pennsylvania Ave, Washington, DC"); ("value", "500000") ] =
    (Return [ ("property_tax_amount", Str "3626.53");
              ("property_tax_effective_rate", Str "0.00725");
              ("information",
               Str "Based on DC-wide property tax rate after application of homestead exemption") ],
     {| status := 200 |}) /\
  Py.format_f 2 (F64.mul (F64.sub (F64.of_int 500000) (F64.of_int 73350))
                         (F64.of_decimal false 85 (-4))) = "3626.53".
Proof. split; vm_compute; reflexivity. Qed.

(** C4 as first stated fails: the amount of that answer is not "3625.03". *)
Lemma ptax_washington_dc_example_amount :
  ~ (exists d,
       GET [ ("address", "1600 Pennsylvania Ave, Washington, DC"); ("value", "500000") ] =
         (Return d, {| status := 200 |}) /\
       item d "property_tax_amount" = Some (Str "3625.03") /\
       item d "property_tax_effective_rate" = Some (Str "0.00725")).
Proof.
  intros (d & HG & Hamount & _).
  vm_compute in HG; injection HG as <-.
  vm_compute in Hamount; discriminate Hamount.
Qed.

(** C5 (as amended).  The request with address "1 Infinite Loop,
    Cupertino, CA" and value "500000" is answered 200 with the amount
    "5715.00", which is [500000 * 0.01143] written with two decimals, and
    the rate the float 0.01143. *)
Theorem ptax_california_example :
  GET [ ("address", "1 Infinite Loop, Cupertino, CA"); ("value", "500000") ] =
    (Return [ ("property_tax_amount", Str "5715.00");
              ("property_tax_effective_rate", Float (F64.of_decimal false 1143 (-5)));
              ("information",
               Str "Based on the California statewide average property tax rate") ],
     {| status := 200 |}) /\
  Py.format_f 2 (F64.mul (F64.of_int 500000) (F64.of_decimal false 1143 (-5))) = "5715.00".
Proof. split; vm_compute; reflexivity. Qed.

(** C5 as first stated fails: the amount of that answer is not "57150.00". *)
Lemma ptax_california_example_amount :
  ~ (exists d,
       GET [ ("address", "1 Infinite Loop, Cupertino, CA"); ("value", "500000") ] =
         (Return d, {| status := 200 |}) /\
       item d "property_tax_amount" = Some (Str "57150.00") /\
       item d "property_tax_effective_rate" = Some (Float (F64.of_decimal false 1143 (-5)))).
Proof.
  intros (d & HG & Hamount & _).
  vm_compute in HG; injection HG as <-.
  vm_compute in Hamount; discriminate Hamount.
Qed.

(** ** Further properties of the handler and its calculators *)

Module DispatchFacts.
Import F64 F64Facts TextFacts PyFacts PtaxFacts.

(** No calculator looks at its first argument. *)
Lemma calculator_for_ignores_address code a a' v :
  calculator_for code a v = calculator_for code a' v.
Proof.
  unfold calculator_for.
  destruct (String.eqb code "CA"); [ reflexivity | ].
  destruct (String.eqb code "CO"); [ reflexivity | ].
  destruct (String.eqb code "DC"); reflexivity.
Qed.

Lemma ptax_first_pair q r v code :
  validated q v -> FirstUpperPair (getattr q "address") code ->
  ptax q r = (calculator_for code (getattr q "address") v, r).
Proof.
  intros Hv Hfirst.
  destruct (first_upper_pair_truthy _ _ Hfirst) as [Hne Hcode].
  rewrite (ptax_validated q r v Hv); cbv zeta.
  rewrite (re_search_AZ2_first _ _ Hfirst).
  apply truthy_true in Hne; rewrite Hne.
  unfold truthy_state; rewrite Hcode.
  cbn [negb andb]. rewrite state_map_calculator_for. reflexivity.
Qed.


Lemma validated_or_not q : (exists v, validated q v) \/ (forall v, ~ validated q v).
Proof.
  unfold validated.
  destruct (Py.float (getattr q "value")) as [ v | ];
    [ | right; intros v [H _]; discriminate H ].
  destruct (ltb v c_1e3 || gtb v c_1e12) eqn:Hr.
  - right; intros v' [[= <-] Hp]. apply passes_range_check_orb in Hp; congruence.
  - left; exists v; split; trivial. apply passes_range_check_orb, Hr.
Qed.

(** A request whose value is not validated is answered from its value
    alone. *)
Lemma ptax_not_validated q1 q2 r :
  getattr q1 "value" = getattr q2 "value" ->
  (forall v, ~ validated q1 v) ->
  ptax q1 r = ptax q2 r.
Proof.
  intros Hval Hnot; unfold ptax; cbv zeta; rewrite <- Hval.
  destruct (negb (truthy (getattr q1 "value"))); [ reflexivity | ].
  destruct (Py.float (getattr q1 "value")) as [ v | ] eqn:Hf; [ | reflexivity ].
  destruct (ltb v c_1e3 || gtb v c_1e12) eqn:Hr; [ reflexivity | ].
  exfalso; apply (Hnot v); split; trivial. apply passes_range_check_orb, Hr.
Qed.

Lemma validated_same_value q1 q2 v :
  getattr q1 "value" = getattr q2 "value" -> validated q1 v -> validated q2 v.
Proof. unfold validated; intros <-; trivial. Qed.

(** The product of a value in range and a rate below one is a finite number
    that is not negative. *)
Lemma flat_rate_product v mc ec :
  in_range v -> small_mantissa v -> Z.pos mc < 2 ^ prec -> ec <= 0 ->
  is_finite (mul v (S754_finite false mc ec)) = true /\
  has_sign false (mul v (S754_finite false mc ec)).
Proof.
  intros Hr Hs Hmc Hec; split; [ apply mul_in_range_finite; trivial | ].
  destruct (in_range_finite v Hr) as (m & e & ->).
  unfold mul, SFmul; cbn [xorb].
  apply binary_round_aux_sign; lia.
Qed.

Lemma format_f_unsigned digits x :
  is_finite x = true -> has_sign false x ->
  unsigned_numeral digits x (Py.format_f digits x).
Proof.
  destruct x as [ s | s | | s m e ]; try discriminate; simpl; intros _ ->.
  - exists 0; repeat split; try lia. apply fixed_numeral; lia.
  - destruct (scaled_nearest digits m e) as [H0 Hn].
    exists (Py.scaled digits m e); repeat split; trivial.
    apply fixed_numeral, H0.
Qed.

Lemma flat_rate_amount v mc ec :
  in_range v -> small_mantissa v -> Z.pos mc < 2 ^ prec -> ec <= 0 ->
  unsigned_numeral 2 (mul v (S754_finite false mc ec))
    (Py.format_f 2 (mul v (S754_finite false mc ec))).
Proof.
  intros Hr Hs Hmc Hec.
  destruct (flat_rate_product v mc ec Hr Hs Hmc Hec) as [Hfin Hsign].
  apply format_f_unsigned; assumption.
Qed.

Lemma c_0_0057_eq : c_0_0057 = S754_finite false 6571652576259028 (-60).
Proof. vm_compute; reflexivity. Qed.

Lemma c_0_01143_eq : c_0_01143 = S754_finite false 6588946398828130 (-59).
Proof. vm_compute; reflexivity. Qed.

End DispatchFacts.


(** X2.  The answer depends on the address only through its state code:
    two requests with the same value whose addresses have the same first
    pair of upper-case letters get the same status and the same body. *)
Theorem ptax_address_only_through_code (q1 q2 : FormsDict) (code : string) :
  getattr q1 "value" = getattr q2 "value" ->
  FirstUpperPair (getattr q1 "address") code ->
  FirstUpperPair (getattr q2 "address") code ->
  GET q1 = GET q2.
Proof.
  intros Hval H1 H2; unfold GET.
  destruct (DispatchFacts.validated_or_not q1) as [ (v & Hv) | Hnot ].
  - pose proof (DispatchFacts.validated_same_value q1 q2 v Hval Hv) as Hv2.
    rewrite (DispatchFacts.ptax_first_pair q1 fresh v code Hv H1).
    rewrite (DispatchFacts.ptax_first_pair q2 fresh v code Hv2 H2).
    rewrite (DispatchFacts.calculator_for_ignores_address code _ (getattr q2 "address")).
    reflexivity.
  - apply DispatchFacts.ptax_not_validated; assumption.
Qed.

Lemma ptax_address_only_through_code_witness :
  let q1 := [ ("address", "12 Pearl St, Boulder, CO 80302"); ("value", "300000") ] in
  let q2 := [ ("value", "300000"); ("address", "Denver CO") ] in
  getattr q1 "value" = getattr q2 "value" /\
  FirstUpperPair (getattr q1 "address") "CO" /\
  FirstUpperPair (getattr q2 "address") "CO" /\
  GET q1 = GET q2.
Proof.
  intros q1 q2.
  assert (Hv : getattr q1 "value" = getattr q2 "value") by reflexivity.
  assert (H1 : FirstUpperPair (getattr q1 "address") "CO")
    by (apply TextFacts.re_search_AZ2_some; vm_compute; reflexivity).
  assert (H2 : FirstUpperPair (getattr q2 "address") "CO")
    by (apply TextFacts.re_search_AZ2_some; vm_compute; reflexivity).
  split; [ exact Hv | split; [ exact H1 | split; [ exact H2 | ] ] ].
  exact (ptax_address_only_through_code q1 q2 "CO" Hv H1 H2).
Defined.

(** X3.  A state code outside the registry changes nothing: a request
    whose address has a first upper-case pair other than CA, CO and DC is
    answered exactly as a request with the same value and no address, or an
    empty one. *)
Theorem ptax_unregistered_code_as_no_address (q q' : FormsDict) (code : string) :
  getattr q "value" = getattr q' "value" ->
  FirstUpperPair (getattr q "address") code ->
  code <> "CA" -> code <> "CO" -> code <> "DC" ->
  getattr q' "address" = EmptyString ->
  GET q = GET q'.
Proof.
  intros Hval Hfirst Hca Hco Hdc Ha'; unfold GET.
  destruct (DispatchFacts.validated_or_not q) as [ (v & Hv) | Hnot ].
  - pose proof (DispatchFacts.validated_same_value q q' v Hval Hv) as Hv'.
    rewrite (DispatchFacts.ptax_first_pair q fresh v code Hv Hfirst).
    rewrite (PtaxFacts.ptax_no_address q' fresh v Hv' Ha').
    unfold calculator_for.
    apply String.eqb_neq in Hca, Hco, Hdc; rewrite Hca, Hco, Hdc; reflexivity.
  - apply DispatchFacts.ptax_not_validated; assumption.
Qed.

Lemma ptax_unregistered_code_as_no_address_witness :
  let q := [ ("address", "Austin, TX"); ("value", "250000") ] in
  let q' := [ ("value", "250000") ] in
  getattr q "value" = getattr q' "value" /\
  FirstUpperPair (getattr q "address") "TX" /\
  getattr q' "address" = EmptyString /\
  GET q = GET q'.
Proof.
  intros q q'.
  assert (Hv : getattr q "value" = getattr q' "value") by reflexivity.
  assert (H1 : FirstUpperPair (getattr q "address") "TX")
    by (apply TextFacts.re_search_AZ2_some; vm_compute; reflexivity).
  assert (Ha : getattr q' "address" = EmptyString) by reflexivity.
  split; [ exact Hv | split; [ exact H1 | split; [ exact Ha | ] ] ].
  apply (ptax_unregistered_code_as_no_address q q' "TX" Hv H1); trivial; discriminate.
Defined.

(** X4.  Colorado: on a request whose value parses to a [v] with
    1000 <= v <= 1e12 and whose address has CO as its first upper-case pair,
    the handler answers 200 with the amount [v * 0.0057] written with two
    decimals, the rate the float 0.0057 and the Colorado information.  The
    product is finite and not negative, and the amount is the unsigned
    two-decimal numeral nearest to it. *)
Theorem ptax_colorado (q : FormsDict) (v : F64.float) :
  Py.float (getattr q "value") = Some v ->
  in_range v ->
  FirstUpperPair (getattr q "address") "CO" ->
  GET q =
    (Return [ ("property_tax_amount", Str (Py.format_f 2 (F64.mul v c_0_0057)));
              ("property_tax_effective_rate", Float (F64.of_decimal false 57 (-4)));
              ("information",
               Str "Based on the Colorado statewide average property tax rate") ],
     {| status := 200 |}) /\
  unsigned_numeral 2 (F64.mul v c_0_0057) (Py.format_f 2 (F64.mul v c_0_0057)).
Proof.
  intros Hf Hr Hfirst; split.
  - unfold GET; rewrite (DispatchFacts.ptax_first_pair q fresh v "CO"); trivial.
    split; [ exact Hf | apply PtaxFacts.in_range_passes, Hr ].
  - rewrite DispatchFacts.c_0_0057_eq.
    apply DispatchFacts.flat_rate_amount; trivial.
    + apply (PyFacts.float_small _ _ Hf).
    + reflexivity.
    + discriminate.
Qed.

Lemma ptax_colorado_witness :
  let q := [ ("address", "123 Main St, Denver, CO"); ("value", "300000") ] in
  let v := S754_finite false 5153960755200000 (-34) in
  Py.float (getattr q "value") = Some v /\ in_range v /\
  FirstUpperPair (getattr q "address") "CO" /\
  GET q =
    (Return [ ("property_tax_amount", Str "1710.00");
              ("property_tax_effective_rate", Float c_0_0057);
              ("information",
               Str "Based on the Colorado statewide average property tax rate") ],
     {| status := 200 |}).
Proof.
  intros q v.
  assert (Hf : Py.float (getattr q "value") = Some v) by (vm_compute; reflexivity).
  assert (Hr : in_range v) by (split; vm_compute; reflexivity).
  assert (H1 : FirstUpperPair (getattr q "address") "CO")
    by (apply TextFacts.re_search_AZ2_some; vm_compute; reflexivity).
  split; [ exact Hf | split; [ exact Hr | split; [ exact H1 | ] ] ].
  rewrite (proj1 (ptax_colorado q v Hf Hr H1)).
  vm_compute; reflexivity.
Defined.

(** X5.  California: on a request whose value parses to a [v] with
    1000 <= v <= 1e12 and whose address has CA as its first upper-case pair,
    the handler answers 200 with the amount [v * 0.01143] written with two
    decimals, the rate the float 0.01143 and the California information.
    The product is finite and not negative, and the amount is the unsigned
    two-decimal numeral nearest to it. *)
Theorem ptax_california (q : FormsDict) (v : F64.float) :
  Py.float (getattr q "value") = Some v ->
  in_range v ->
  FirstUpperPair (getattr q "address") "CA" ->
  GET q =
    (Return [ ("property_tax_amount", Str (Py.format_f 2 (F64.mul v c_0_01143)));
              ("property_tax_effective_rate", Float (F64.of_decimal false 1143 (-5)));
              ("information",
               Str "Based on the California statewide average property tax rate") ],
     {| status := 200 |}) /\
  unsigned_numeral 2 (F64.mul v c_0_01143) (Py.format_f 2 (F64.mul v c_0_01143)).
Proof.
  intros Hf Hr Hfirst; split.
  - unfold GET; rewrite (DispatchFacts.ptax_first_pair q fresh v "CA"); trivial.
    split; [ exact Hf | apply PtaxFacts.in_range_passes, Hr ].
  - rewrite DispatchFacts.c_0_01143_eq.
    apply DispatchFacts.flat_rate_amount; trivial.
    + apply (PyFacts.float_small _ _ Hf).
    + reflexivity.
    + discriminate.
Qed.

Lemma ptax_california_witness :
  let q := [ ("address", "Market St, San Francisco, CA"); ("value", "1e6") ] in
  let v := S754_finite false 8589934592000000 (-33) in
  Py.float (getattr q "value") = Some v /\ in_range v /\
  FirstUpperPair (getattr q "address") "CA" /\
  GET q =
    (Return [ ("property_tax_amount", Str "11430.00");
              ("property_tax_effective_rate", Float c_0_01143);
              ("information",
               Str "Based on the California statewide average property tax rate") ],
     {| status := 200 |}).
Proof.
  intros q v.
  assert (Hf : Py.float (getattr q "value") = Some v) by (vm_compute; reflexivity).
  assert (Hr : in_range v) by (split; vm_compute; reflexivity).
  assert (H1 : FirstUpperPair (getattr q "address") "CA")
    by (apply TextFacts.re_search_AZ2_some; vm_compute; reflexivity).
  split; [ exact Hf | split; [ exact Hr | split; [ exact H1 | ] ] ].
  rewrite (proj1 (ptax_california q v Hf Hr H1)).
  vm_compute; reflexivity.
Defined.

(** ** What [float()] accepts is made of float syntax *)
Module ParseFacts.
Import Py.

Lemma all_chars_app P s t :
  all_chars P (s ++ t) = all_chars P s && all_chars P t.
Proof.
  induction s as [ | c s IH ]; simpl; trivial.
  rewrite IH, andb_assoc; reflexivity.
Qed.

Lemma all_chars_at P pre c suf :
  all_chars P (pre ++ String c suf) = true -> P c = true.
Proof.
  rewrite all_chars_app; simpl; intros H.
  apply andb_true_iff in H; destruct H as [_ H].
  apply andb_true_iff in H; tauto.
Qed.

Lemma all_chars_rev_onto P s : forall acc,
  all_chars P (rev_onto s acc) = all_chars P s && all_chars P acc.
Proof.
  induction s as [ | c s IH ]; intros acc; simpl; trivial.
  rewrite IH; simpl.
  destruct (P c), (all_chars P s), (all_chars P acc); reflexivity.
Qed.

Lemma all_chars_rev P s : all_chars P (rev s) = all_chars P s.
Proof. unfold rev; rewrite all_chars_rev_onto; simpl; apply andb_true_r. Qed.

Lemma syntax_digit c : is_digit c = true -> float_syntax c = true.
Proof. unfold float_syntax; intros ->; reflexivity. Qed.

Lemma syntax_space c : is_space c = true -> float_syntax c = true.
Proof. unfold float_syntax; intros ->; rewrite !orb_true_r; reflexivity. Qed.

Lemma syntax_letter c :
  one_of "infinitya" (to_lower c) = true -> float_syntax c = true.
Proof. unfold float_syntax; intros ->; rewrite !orb_true_r; reflexivity. Qed.

Lemma lstrip_chars s :
  all_chars float_syntax (lstrip s) = true -> all_chars float_syntax s = true.
Proof.
  induction s as [ | c s IH ]; simpl; trivial.
  destruct (is_space c) eqn:Hc; trivial.
  intros H; rewrite (syntax_space c Hc), (IH H); reflexivity.
Qed.

Lemma strip_chars s :
  all_chars float_syntax (strip s) = true -> all_chars float_syntax s = true.
Proof.
  unfold strip; rewrite all_chars_rev; intros H.
  apply lstrip_chars in H; rewrite all_chars_rev in H.
  apply lstrip_chars, H.
Qed.

Lemma drop_underscores_chars s : forall prev t,
  drop_underscores prev s = Some t ->
  all_chars float_syntax t = true -> all_chars float_syntax s = true.
Proof.
  induction s as [ | c s IH ]; intros prev t; simpl; trivial.
  destruct (Ascii.eqb c "_") eqn:Hc.
  - apply Ascii.eqb_eq in Hc; subst c.
    destruct (is_digit prev); [ | discriminate ].
    intros Hd Ht; rewrite (IH _ _ Hd Ht); reflexivity.
  - destruct (Ascii.eqb prev "_" && negb (is_digit c)); [ discriminate | ].
    destruct (drop_underscores c s) as [ t' | ] eqn:Hd; [ | discriminate ].
    simpl; intros [= <-]; simpl; intros Ht.
    apply andb_true_iff in Ht; destruct Ht as [Hc' Ht'].
    rewrite Hc', (IH _ _ Hd Ht'); reflexivity.
Qed.

Lemma span_digits_chars s : forall ds rest,
  span_digits s = (ds, rest) ->
  all_chars float_syntax rest = true -> all_chars float_syntax s = true.
Proof.
  induction s as [ | c s IH ]; intros ds rest; simpl.
  - intros [= <- <-]; trivial.
  - destruct (is_digit c) eqn:Hc.
    + destruct (span_digits s) as [ds' rest'] eqn:Hs.
      intros [= <- <-] Hr. rewrite (syntax_digit c Hc), (IH _ _ eq_refl Hr); reflexivity.
    + intros [= <- <-]; trivial.
Qed.

(** The first character is taken as a sign, or nothing is. *)
Lemma split_sign_cases s :
  snd (split_sign s) = s \/
  exists c, (c = "-"%char \/ c = "+"%char) /\ s = String c (snd (split_sign s)).
Proof.
  destruct s as [ | c r ]; [ left; reflexivity | ].
  destruct c as [[] [] [] [] [] [] [] []];
    first [ left; reflexivity | right; eexists; split; [ | reflexivity ]; tauto ].
Qed.

Lemma split_sign_chars s :
  all_chars float_syntax (snd (split_sign s)) = true ->
  all_chars float_syntax s = true.
Proof.
  destruct (split_sign_cases s) as [ -> | (c & Hc & Hs) ]; trivial.
  intros H; rewrite Hs; simpl; rewrite H.
  destruct Hc as [ -> | -> ]; reflexivity.
Qed.

(** The fraction: a point and digits, or nothing. *)
Lemma fraction_cases s :
  (match s with
   | String "."%char r => span_digits r
   | _ => (EmptyString, s)
   end) = (EmptyString, s) \/
  exists r, s = String "."%char r /\
            (match s with
             | String "."%char r => span_digits r
             | _ => (EmptyString, s)
             end) = span_digits r.
Proof.
  destruct s as [ | c r ]; [ left; reflexivity | ].
  destruct c as [[] [] [] [] [] [] [] []];
    first [ left; reflexivity | right; eexists; split; reflexivity ].
Qed.

Lemma parse_exponent_chars s ex rest :
  parse_exponent s = (ex, rest) ->
  all_chars float_syntax rest = true -> all_chars float_syntax s = true.
Proof.
  unfold parse_exponent.
  destruct s as [ | c r ]; [ intros [= <- <-]; trivial | ].
  destruct (Ascii.eqb c "e" || Ascii.eqb c "E") eqn:Hc;
    [ | intros [= <- <-]; trivial ].
  pose proof (split_sign_chars r) as Hsign.
  destruct (split_sign r) as [neg r1]; cbn [snd] in Hsign.
  destruct (span_digits r1) as [ds rest'] eqn:Hd.
  destruct ds as [ | d ds ]; [ intros [= <- <-]; trivial | ].
  intros [= <- <-] Hr; simpl.
  rewrite (Hsign (span_digits_chars _ _ _ Hd Hr)), andb_true_r.
  apply orb_true_iff in Hc; destruct Hc as [Hc | Hc];
    apply Ascii.eqb_eq in Hc; subst c; reflexivity.
Qed.

Lemma parse_decimal_chars s x :
  parse_decimal s = Some x -> all_chars float_syntax s = true.
Proof.
  unfold parse_decimal; intros H; apply split_sign_chars; revert H.
  destruct (split_sign s) as [neg s1]; cbn [snd].
  destruct (span_digits s1) as [ip s2] eqn:Hip.
  intros H; apply (span_digits_chars _ _ _ Hip); revert H.
  destruct (fraction_cases s2) as [ -> | (r & -> & _) ]; [ | cbv beta iota ].
  - destruct (ip ++ EmptyString); [ discriminate | ].
    destruct (parse_exponent s2) as [ex s4] eqn:He.
    destruct s4; [ | discriminate ].
    intros _; apply (parse_exponent_chars _ _ _ He); reflexivity.
  - destruct (span_digits r) as [fp s3] eqn:Hfp.
    destruct (ip ++ fp); [ discriminate | ].
    destruct (parse_exponent s3) as [ex s4] eqn:He.
    destruct s4; [ | discriminate ].
    intros _; simpl.
    apply (span_digits_chars _ _ _ Hfp), (parse_exponent_chars _ _ _ He); reflexivity.
Qed.

Lemma all_chars_lower P s :
  all_chars P (lower s) = all_chars (fun c => P (to_lower c)) s.
Proof. induction s as [ | c s IH ]; simpl; congruence. Qed.

Lemma all_chars_weaken (P Q : ascii -> bool) s :
  (forall c, P c = true -> Q c = true) ->
  all_chars P s = true -> all_chars Q s = true.
Proof.
  intros HPQ; induction s as [ | c s IH ]; simpl; trivial.
  intros H; apply andb_true_iff in H; destruct H as [Hc Hs].
  rewrite (HPQ c Hc), (IH Hs); reflexivity.
Qed.

Lemma parse_inf_or_nan_chars s x :
  parse_inf_or_nan s = Some x -> all_chars float_syntax s = true.
Proof.
  unfold parse_inf_or_nan; intros H; apply split_sign_chars; revert H.
  destruct (split_sign s) as [neg r]; cbn [snd].
  assert (Hw : forall w, lower r = w ->
                 all_chars (one_of "infinitya") w = true ->
                 all_chars float_syntax r = true).
  { intros w <-; rewrite all_chars_lower.
    apply all_chars_weaken; intros c; apply syntax_letter. }
  destruct (String.eqb (lower r) "inf") eqn:H1;
    [ apply String.eqb_eq in H1; intros _; apply (Hw _ H1); reflexivity | ].
  destruct (String.eqb (lower r) "infinity") eqn:H2;
    [ apply String.eqb_eq in H2; intros _; apply (Hw _ H2); reflexivity | ].
  destruct (String.eqb (lower r) "nan") eqn:H3;
    [ apply String.eqb_eq in H3; intros _; apply (Hw _ H3); reflexivity | ].
  discriminate.
Qed.

Lemma all_chars_to_ascii s :
  all_chars float_syntax (to_ascii s) = all_chars float_char s.
Proof.
  induction s as [ | c s IH ]; [ reflexivity | ].
  cbn [all_chars to_ascii]; rewrite IH; reflexivity.
Qed.

(** Every character of a text that [float()] accepts is float syntax. *)
Lemma float_chars s v : Py.float s = Some v -> all_chars float_char s = true.
Proof.
  unfold Py.float; rewrite <- all_chars_to_ascii.
  destruct (drop_underscores _ (to_ascii s)) as [ t | ] eqn:Hd; [ | discriminate ].
  cbv zeta; intros H.
  apply (drop_underscores_chars _ _ _ Hd), strip_chars.
  destruct (parse_decimal (strip t)) as [ x | ] eqn:Hp.
  - apply (parse_decimal_chars _ _ Hp).
  - apply (parse_inf_or_nan_chars _ _ H).
Qed.

End ParseFacts.

(** X7.  A value that holds a character outside the syntax of floats, a
    dollar sign or a comma for instance, is answered 400 "Bad value
    provided", wherever the character stands and whatever else the request
    holds. *)
Theorem ptax_rejects_foreign_character (q : FormsDict) (pre suf : string) (c : ascii) :
  getattr q "value" = pre ++ String c suf ->
  float_char c = false ->
  GET q = (Return (error "Bad value provided"), {| status := 400 |}).
Proof.
  intros Hval Hc.
  apply PtaxFacts.ptax_invalid.
  - rewrite Hval; destruct pre; discriminate.
  - destruct (Py.float (getattr q "value")) as [ v | ] eqn:Hf; trivial.
    apply ParseFacts.float_chars in Hf; rewrite Hval in Hf.
    apply ParseFacts.all_chars_at in Hf; congruence.
Qed.

Lemma ptax_rejects_foreign_character_witness :
  let q := [ ("address", "Denver, CO"); ("value", "$500,000") ] in
  getattr q "value" = "$500" ++ String "," "000" /\
  float_char "," = false /\ float_char "$" = false /\
  GET q = (Return (error "Bad value provided"), {| status := 400 |}).
Proof.
  intros q.
  assert (Hv : getattr q "value" = "$500" ++ String "," "000") by reflexivity.
  assert (Hc : float_char "," = false) by reflexivity.
  split; [ exact Hv | split; [ exact Hc | split; [ reflexivity | ] ] ].
  exact (ptax_rejects_foreign_character q "$500" "000" "," Hv Hc).
Defined.

(** ** More on rounding: no underflow to zero, exponent bounds, alignment *)
Module RoundingFacts.
Import F64 F64Facts.

Lemma Zdigits2_lower m : 0 < m -> 2 ^ (Zdigits2 m - 1) <= m.
Proof.
  intros Hm; destruct m as [ | p | p ]; try lia.
  rewrite Zdigits2_log2.
  replace (Z.succ (Z.log2 (Z.pos p)) - 1) with (Z.log2 (Z.pos p)) by lia.
  apply Z.log2_spec; lia.
Qed.

(** Aligning a mantissa to a lower exponent multiplies it by a power of two
    and changes nothing else. *)
Lemma shl_align_spec mx ex ex' :
  snd (shl_align mx ex ex') = Z.min ex ex' /\
  Z.pos (fst (shl_align mx ex ex')) = Z.pos mx * 2 ^ (ex - Z.min ex ex').
Proof.
  unfold shl_align.
  destruct (ex' - ex) as [ | d | d ] eqn:Hd; cbn [fst snd].
  - replace (Z.min ex ex') with ex by lia.
    rewrite Z.sub_diag; simpl; lia.
  - replace (Z.min ex ex') with ex by lia.
    rewrite Z.sub_diag; simpl; lia.
  - replace (Z.min ex ex') with ex' by lia.
    replace (ex - ex') with (Z.pos d) by lia.
    change (Pos.iter xO mx d) with (shift_pos d mx).
    rewrite shift_pos_correct; change (Z.pow_pos 2 d) with (2 ^ Z.pos d); lia.
Qed.

(** Above the least exponent a rounding shift leaves a mantissa that is not
    zero. *)
Lemma shr_fexp_pos m e l :
  0 < m -> -1074 <= e ->
  0 < shr_m (fst (shr_fexp prec emax m e l)) /\
  -1074 <= snd (shr_fexp prec emax m e l).
Proof.
  intros Hm He.
  destruct (shr_fexp_spec m e l ltac:(lia)) as [Hsnd _].
  split; [ | rewrite Hsnd; lia ].
  pose proof (Zdigits2_lower m Hm) as Hd.
  assert (Hd1 : 1 <= Zdigits2 m) by (destruct m; simpl in *; lia).
  unfold shr_fexp, shr.
  set (d := Zdigits2 m) in *.
  assert (Hf : fexp prec emax (d + e) = Z.max (d + e - 53) (-1074)) by reflexivity.
  destruct (fexp prec emax (d + e) - e) as [ | n | n ] eqn:Hn; cbn [fst];
    rewrite ?shr_record_of_loc_m; trivial.
  rewrite iter_shr_1_div, shr_record_of_loc_m by (rewrite shr_record_of_loc_m; lia).
  apply Z.div_str_pos; split; [ apply Z.pow_pos_nonneg; lia | ].
  eapply Z.le_trans; [ | exact Hd ].
  apply Z.pow_le_mono_r; lia.
Qed.

(** A result of rounding is a number other than zero. *)
Lemma binary_round_aux_nonzero s m e l :
  0 < m -> -1074 <= e ->
  match binary_round_aux prec emax s m e l with
  | S754_zero _ | S754_nan => False
  | _ => True
  end.
Proof.
  intros Hm He; unfold binary_round_aux.
  destruct (shr_fexp_pos m e l Hm He) as [H1 He1].
  destruct (shr_fexp prec emax m e l) as [mrs1 e1]; cbn [fst snd] in H1, He1.
  pose proof (round_nearest_even_le (shr_m mrs1) (loc_of_shr_record mrs1)) as Hr.
  destruct (shr_fexp_pos (round_nearest_even (shr_m mrs1) (loc_of_shr_record mrs1))
              e1 loc_Exact ltac:(lia) He1) as [H2 _].
  destruct (shr_fexp prec emax _ e1 loc_Exact) as [mrs2 e2]; cbn [fst] in H2.
  destruct (shr_m mrs2) as [ | p | p ]; try lia.
  destruct (_ <=? _); exact I.
Qed.

Lemma binary_round_nonzero s m e :
  -1074 <= e ->
  match binary_round prec emax s m e with
  | S754_zero _ | S754_nan => False
  | _ => True
  end.
Proof.
  intros He; unfold binary_round.
  destruct (shl_align_spec m e (fexp prec emax (Z.pos (digits2_pos m) + e)))
    as [Hsnd _].
  destruct (shl_align m e _) as [mz ez]; cbn [snd] in Hsnd.
  apply binary_round_aux_nonzero; [ lia | ].
  subst ez; unfold fexp, SpecFloat.emin, emax, prec; lia.
Qed.

(** Rounding a mantissa below [2^k]: the result is finite and its exponent
    stays below any bound [B] that leaves room for the shift and one carry. *)
Lemma binary_round_aux_bound s m e l k B :
  0 <= m < 2 ^ k -> 0 <= k ->
  Z.max e (k + e - prec) + 1 <= B -> -1073 <= B -> B <= emax - prec ->
  is_finite (binary_round_aux prec emax s m e l) = true /\
  match binary_round_aux prec emax s m e l with
  | S754_finite _ _ e' => e' <= B
  | _ => True
  end.
Proof.
  intros Hm Hk He HB1 HB2; unfold binary_round_aux.
  destruct (shr_fexp_spec m e l (proj1 Hm)) as [He1 H1].
  pose proof (Zdigits2_bound m k Hm Hk) as Hd.
  destruct (shr_fexp prec emax m e l) as [mrs1 e1]; cbn [fst snd] in H1, He1.
  pose proof (round_nearest_even_le (shr_m mrs1) (loc_of_shr_record mrs1)) as Hr.
  set (m1 := round_nearest_even (shr_m mrs1) (loc_of_shr_record mrs1)) in *.
  assert (Hm1 : 0 <= m1 < 2 ^ 54).
  { split; [ lia | ].
    change (2 ^ 54) with (2 * 2 ^ prec); lia. }
  destruct (shr_fexp_spec m1 e1 loc_Exact (proj1 Hm1)) as [He2 H2].
  pose proof (Zdigits2_bound m1 54 Hm1 ltac:(lia)) as Hd1.
  destruct (shr_fexp prec emax m1 e1 loc_Exact) as [mrs2 e2]; cbn [fst snd] in H2, He2.
  assert (HeB : e2 <= B).
  { subst e2 e1. unfold fexp, SpecFloat.emin, emax, prec in *; lia. }
  assert (Hle : (e2 <=? emax - prec) = true) by (apply Z.leb_le; lia).
  rewrite Hle.
  destruct (shr_m mrs2) as [ | p | p ]; simpl; try tauto; lia.
Qed.

Lemma binary_round_bound s m e k B :
  Z.pos m < 2 ^ k -> prec <= k ->
  Z.max e (k + e - prec) + 1 <= B -> -1073 <= B -> B <= emax - prec ->
  is_finite (binary_round prec emax s m e) = true /\
  match binary_round prec emax s m e with
  | S754_finite _ _ e' => e' <= B
  | _ => True
  end.
Proof.
  intros Hm Hk He HB1 HB2; unfold binary_round.
  pose proof (Zdigits2_gt (Z.pos m) ltac:(lia)) as Hd; cbn [Zdigits2] in Hd.
  destruct (shl_align_spec m e (fexp prec emax (Z.pos (digits2_pos m) + e)))
    as [Hsnd Hfst].
  set (d := Z.pos (digits2_pos m)) in *.
  assert (Hf : fexp prec emax (d + e) = Z.max (d + e - 53) (-1074)) by reflexivity.
  destruct (shl_align m e _) as [mz ez]; cbn [fst snd] in Hsnd, Hfst.
  unfold prec in Hk.
  destruct (Z.le_gt_cases e (fexp prec emax (d + e))) as [Hle | Hgt].
  - assert (ez = e) by lia; subst ez.
    rewrite Z.min_l, Z.sub_diag in Hfst by lia.
    apply (binary_round_aux_bound _ _ _ _ k); try lia;
      rewrite Hfst; change (2 ^ 0) with 1; lia.
  - assert (Hez : ez = fexp prec emax (d + e)) by lia.
    rewrite <- Hez in *.
    apply (binary_round_aux_bound _ _ _ _ 53); try exact HB2; unfold prec; try lia.
    rewrite Hfst, Z.min_r by lia.
    split; [ lia | ].
    eapply Z.lt_le_trans.
    + apply Z.mul_lt_mono_pos_r; [ apply Z.pow_pos_nonneg; lia | exact Hd ].
    + rewrite <- Z.pow_add_r by lia.
      apply Z.pow_le_mono_r; lia.
Qed.

End RoundingFacts.

(** ** The Washington DC calculator on values in range *)
Module DCFacts.
Import F64 F64Facts RoundingFacts PtaxFacts.

Lemma in_range_exponent_lower m e : in_range (S754_finite false m e) -> -43 <= e.
Proof.
  intros [H _]; rewrite c_1e3_eq in H.
  unfold leb, SFleb, SFcompare in H.
  destruct (Z.compare_spec (-43) e) as [ Hc | Hc | Hc ]; try discriminate H; lia.
Qed.

(** Subtraction of two positive numbers: the difference of the mantissas
    aligned to the lower exponent, rounded. *)
Lemma sub_aligned m e mc ec :
  sub (S754_finite false m e) (S754_finite false mc ec) =
  binary_normalize prec emax
    (Z.pos m * 2 ^ (e - Z.min e ec) - Z.pos mc * 2 ^ (ec - Z.min e ec))
    (Z.min e ec) false.
Proof.
  unfold sub, SFsub; cbv zeta; cbn [cond_Zopp].
  destruct (shl_align_spec m e (Z.min e ec)) as [_ ->].
  destruct (shl_align_spec mc ec (Z.min e ec)) as [_ ->].
  replace (Z.min e (Z.min e ec)) with (Z.min e ec) by lia.
  replace (Z.min ec (Z.min e ec)) with (Z.min e ec) by lia.
  reflexivity.
Qed.

(** A negative number other than zero is below zero. *)
Lemma negative_ltb_zero x :
  has_sign true x ->
  match x with S754_zero _ | S754_nan => False | _ => True end ->
  ltb x c_0 = true.
Proof.
  destruct x as [ s | s | | s m e ]; simpl; try tauto; intros ->; reflexivity.
Qed.

(** Two positive numbers in order: the exponents are, or they are equal
    and the mantissas are. *)
Lemma leb_finite_cases m e mc ec :
  leb (S754_finite false m e) (S754_finite false mc ec) = true ->
  e < ec \/ (e = ec /\ Z.pos m <= Z.pos mc).
Proof.
  unfold leb, SFleb, SFcompare.
  destruct (Z.compare_spec e ec) as [ Hc | Hc | Hc ]; try discriminate; auto.
  intros H; right; split; trivial.
  rewrite Pos.compare_cont_spec in H; unfold Pos.switch_Eq in H.
  change (Z.pos m <= Z.pos mc) with ((m ?= mc)%positive <> Gt).
  intros Hgt; rewrite Hgt in H; discriminate H.
Qed.

(** At or below the exemption nothing is assessed. *)
Lemma assessed_value_below m e :
  Z.pos m < 2 ^ prec -> -43 <= e ->
  leb (S754_finite false m e) c_73350 = true ->
  assessed_value (S754_finite false m e) = S754_zero false.
Proof.
  intros Hm He Hle; unfold assessed_value.
  rewrite c_73350_eq in *; rewrite sub_aligned.
  change (2 ^ prec) with 9007199254740992 in Hm.
  assert (HD : Z.pos m * 2 ^ (e - Z.min e (-36))
               - 5040573618585600 * 2 ^ (-36 - Z.min e (-36)) <= 0).
  { destruct (leb_finite_cases _ _ _ _ Hle) as [ Hc | [-> Hz] ].
    - rewrite Z.min_l, Z.sub_diag by lia; change (2 ^ 0) with 1.
      assert (HP : 2 ^ 1 <= 2 ^ (-36 - e)) by (apply Z.pow_le_mono_r; lia).
      change (2 ^ 1) with 2 in HP; lia.
    - rewrite Z.min_id, Z.sub_diag; change (2 ^ 0) with 1; lia. }
  set (D := Z.pos m * 2 ^ (e - Z.min e (-36))
            - 5040573618585600 * 2 ^ (-36 - Z.min e (-36))) in *.
  destruct D as [ | p | p ]; [ reflexivity | lia | ].
  cbn [binary_normalize]; unfold max_0.
  rewrite negative_ltb_zero; [ reflexivity | apply binary_round_sign | ].
  apply binary_round_nonzero; lia.
Qed.

(** The difference of two positive numbers of the format is finite, of the
    format, and never the negative zero. *)
Lemma sub_bound m e mc ec B :
  Z.pos m < 2 ^ prec -> Z.pos mc < 2 ^ prec ->
  -1074 <= e -> -1074 <= ec ->
  Z.max e ec + 1 <= B -> B <= emax - prec ->
  is_finite (sub (S754_finite false m e) (S754_finite false mc ec)) = true /\
  small_mantissa (sub (S754_finite false m e) (S754_finite false mc ec)) /\
  match sub (S754_finite false m e) (S754_finite false mc ec) with
  | S754_finite _ _ e' => e' <= B
  | S754_zero s => s = false
  | _ => True
  end.
Proof.
  intros Hm Hmc He Hec HB1 HB2; rewrite sub_aligned.
  set (ez := Z.min e ec).
  set (K := Z.max e ec - ez).
  assert (HK : 0 <= K) by (unfold K, ez; lia).
  assert (Hpow : forall j, 0 <= j <= K -> 0 < 2 ^ j <= 2 ^ K).
  { intros j Hj; split; [ apply Z.pow_pos_nonneg; lia | ].
    apply Z.pow_le_mono_r; lia. }
  pose proof (Hpow (e - ez) ltac:(unfold K, ez; lia)) as Ha.
  pose proof (Hpow (ec - ez) ltac:(unfold K, ez; lia)) as Hb.
  assert (Hbig : 2 ^ (53 + K) = 2 ^ prec * 2 ^ K)
    by (rewrite Z.pow_add_r by lia; reflexivity).
  set (P := 2 ^ (e - ez)) in *; set (Q := 2 ^ (ec - ez)) in *.
  assert (HaP : 0 < Z.pos m * P < 2 ^ (53 + K)) by (rewrite Hbig; nia).
  assert (HbQ : 0 < Z.pos mc * Q < 2 ^ (53 + K)) by (rewrite Hbig; nia).
  assert (Hround : forall s p, Z.pos p < 2 ^ (53 + K) ->
            is_finite (binary_round prec emax s p ez) = true /\
            small_mantissa (binary_round prec emax s p ez) /\
            match binary_round prec emax s p ez with
            | S754_finite _ _ e' => e' <= B
            | S754_zero s => s = false
            | _ => True
            end).
  { intros s p Hp.
    destruct (binary_round_bound s p ez (53 + K) B) as [Hfin Hexp]; trivial;
      try (unfold prec, K, ez in *; lia).
    pose proof (binary_round_nonzero s p ez ltac:(unfold ez; lia)) as Hnz.
    pose proof (binary_round_small s p ez) as Hsm.
    destruct (binary_round prec emax s p ez); tauto. }
  destruct (Z.pos m * P - Z.pos mc * Q) as [ | p | p ] eqn:HD; cbn [binary_normalize].
  - repeat split.
  - apply Hround; lia.
  - apply Hround; lia.
Qed.

(** The product of two positive numbers of the format, at exponents low
    enough, is finite, positive or zero, and of the format. *)
Lemma mul_bound mx ex mc ec B :
  Z.pos mx < 2 ^ prec -> Z.pos mc < 2 ^ prec ->
  ex + ec + 54 <= B -> -1073 <= B -> B <= emax - prec ->
  is_finite (mul (S754_finite false mx ex) (S754_finite false mc ec)) = true /\
  has_sign false (mul (S754_finite false mx ex) (S754_finite false mc ec)) /\
  small_mantissa (mul (S754_finite false mx ex) (S754_finite false mc ec)) /\
  match mul (S754_finite false mx ex) (S754_finite false mc ec) with
  | S754_finite _ _ e' => e' <= B
  | _ => True
  end.
Proof.
  intros Hmx Hmc HB0 HB1 HB2; unfold mul, SFmul; cbn [xorb].
  assert (Hp : 0 <= Z.pos (mx * mc) < 2 ^ 106).
  { split; [ lia | ].
    rewrite Pos2Z.inj_mul.
    change (2 ^ 106) with (2 ^ prec * 2 ^ prec).
    apply Z.mul_lt_mono_nonneg; lia. }
  destruct (binary_round_aux_bound false (Z.pos (mx * mc)) (ex + ec) loc_Exact 106 B)
    as [Hfin Hexp]; trivial; try (unfold prec in *; lia).
  repeat split; trivial.
  - apply binary_round_aux_sign; lia.
  - apply binary_round_aux_small; lia.
Qed.

(** The quotient of two positive numbers of the format, at exponents that
    are not far apart, is finite and positive or zero. *)
Lemma div_bound ma ea m e :
  Z.pos ma < 2 ^ prec ->
  ea - e + 1 <= emax - prec ->
  is_finite (div (S754_finite false ma ea) (S754_finite false m e)) = true /\
  has_sign false (div (S754_finite false ma ea) (S754_finite false m e)).
Proof.
  intros Hma HB2; unfold div, SFdiv, SFdiv_core_binary; cbn [xorb]; cbv zeta.
  remember (Z.min (fexp prec emax (Zdigits2 (Z.pos ma) + ea - (Zdigits2 (Z.pos m) + e)))
                  (ea - e)) as e' eqn:He'.
  assert (He'le : e' <= ea - e) by lia.
  clear He'.
  remember (ea - e - e') as s eqn:Es.
  assert (Hs : 0 <= s) by lia.
  remember (match s with
            | Z0 => Z.pos ma
            | Z.pos _ => Z.shiftl (Z.pos ma) s
            | Z.neg _ => 0
            end) as m' eqn:Em'.
  assert (Hm' : m' = Z.pos ma * 2 ^ s).
  { subst m'; clear Es; destruct s as [ | p | p ];
      [ change (2 ^ 0) with 1; lia | apply Z.shiftl_mul_pow2; lia | lia ]. }
  clear Em'.
  assert (H2s : 0 < 2 ^ s) by (apply Z.pow_pos_nonneg; lia).
  pose proof (Z_div_mod m' (Z.pos m) ltac:(lia)) as Hdm.
  destruct (Z.div_eucl m' (Z.pos m)) as [q r].
  destruct Hdm as [Hq Hr].
  assert (Hq0 : 0 <= q) by nia.
  assert (Hql : q <= m') by nia.
  assert (Hqk : 0 <= q < 2 ^ (53 + s)).
  { split; trivial.
    rewrite Z.pow_add_r by lia; change (2 ^ 53) with (2 ^ prec); nia. }
  destruct (binary_round_aux_bound false q e' (new_location (Z.pos m) r) (53 + s)
              (Z.max (ea - e + 1) (-1073))) as [Hfin _]; trivial;
    try (unfold prec, emax in *; lia).
  split; trivial.
  apply binary_round_aux_sign; trivial.
Qed.

(** On a value in range the amount and the rate of the Washington DC
    calculator are finite numbers that are not negative. *)
Lemma dc_amount_and_rate v :
  in_range v -> small_mantissa v ->
  is_finite (mul (assessed_value v) c_0_0085) = true /\
  has_sign false (mul (assessed_value v) c_0_0085) /\
  is_finite (div (mul (assessed_value v) c_0_0085) v) = true /\
  has_sign false (div (mul (assessed_value v) c_0_0085) v).
Proof.
  intros Hr Hs.
  destruct (in_range_finite v Hr) as (m & e & ->).
  pose proof (in_range_exponent m e Hr) as Hhi.
  pose proof (in_range_exponent_lower m e Hr) as Hlo.
  unfold small_mantissa in Hs.
  assert (Hx : assessed_value (S754_finite false m e) = S754_zero false \/
               exists mx ex, assessed_value (S754_finite false m e)
                             = S754_finite false mx ex /\
                             Z.pos mx < 2 ^ prec /\ ex <= -12).
  { unfold assessed_value, max_0; rewrite c_73350_eq.
    destruct (sub_bound m e 5040573618585600 (-36) (-12)) as (Hfin & Hsm & Hexp);
      trivial; try (unfold emax, prec; lia); try reflexivity.
    destruct (ltb _ c_0) eqn:Hlt; [ left; reflexivity | ].
    destruct (sub (S754_finite false m e) (S754_finite false 5040573618585600 (-36)))
      as [ s | s | | s mx ex ]; try discriminate Hfin.
    - left; subst s; reflexivity.
    - destruct s; [ discriminate Hlt | ].
      right; exists mx, ex; repeat split; trivial. }
  rewrite c_0_0085_eq.
  destruct Hx as [ -> | (mx & ex & -> & Hmx & Hex) ].
  - repeat split.
  - destruct (mul_bound mx ex 4899916394579100 (-59) (-17))
      as (Hfin & Hsign & Hsm & Hexp); trivial;
      try (unfold emax, prec; lia); try reflexivity.
    split; [ exact Hfin | split; [ exact Hsign | ] ].
    destruct (mul (S754_finite false mx ex) (S754_finite false 4899916394579100 (-59)))
      as [ s | s | | s ma ea ]; try discriminate Hfin; simpl in Hsign; subst s.
    + split; reflexivity.
    + unfold small_mantissa in Hsm; cbv beta iota in Hsm, Hexp.
      apply div_bound; trivial; unfold emax, prec; lia.
Qed.

Lemma washington_dc_returns a v :
  eqb v c_0 = false ->
  washington_dc a v =
  Return [ ("property_tax_amount",
            Str (Py.format_f 2 (mul (assessed_value v) c_0_0085)));
           ("property_tax_effective_rate",
            Str (Py.format_f 5 (div (mul (assessed_value v) c_0_0085) v)));
           ("information",
            Str "Based on DC-wide property tax rate after application of homestead exemption") ].
Proof. intros Hnz; unfold washington_dc, truediv; rewrite Hnz; reflexivity. Qed.

Lemma ptax_washington_dc_dispatch q v :
  validated q v -> FirstUpperPair (getattr q "address") "DC" ->
  GET q = (washington_dc (getattr q "address") v, {| status := 200 |}).
Proof.
  intros Hv Hfirst; unfold GET.
  rewrite (DispatchFacts.ptax_first_pair q fresh v "DC" Hv Hfirst); reflexivity.
Qed.

End DCFacts.

(** X6.  Washington DC, at or below the homestead exemption: on a request
    whose value parses to a [v] with 1000 <= v <= 73350 and whose address
    has DC as its first upper-case pair, nothing is assessed and the handler
    answers 200 with the amount "0.00" and the rate "0.00000". *)
Theorem ptax_washington_dc_below_exemption (q : FormsDict) (v : F64.float) :
  Py.float (getattr q "value") = Some v ->
  in_range v ->
  F64.leb v c_73350 = true ->
  FirstUpperPair (getattr q "address") "DC" ->
  assessed_value v = S754_zero false /\
  GET q =
    (Return [ ("property_tax_amount", Str "0.00");
              ("property_tax_effective_rate", Str "0.00000");
              ("information",
               Str "Based on DC-wide property tax rate after application of homestead exemption") ],
     {| status := 200 |}).
Proof.
  intros Hf Hr Hle Hfirst.
  assert (Hv : validated q v) by (split; [ exact Hf | apply PtaxFacts.in_range_passes, Hr ]).
  pose proof (PyFacts.float_small _ _ Hf) as Hs.
  pose proof (PtaxFacts.passes_range_check_nonzero v (proj2 Hv)) as Hnz.
  destruct (PtaxFacts.in_range_finite v Hr) as (m & e & ->).
  pose proof (DCFacts.in_range_exponent_lower m e Hr) as Hlo.
  assert (Ha : assessed_value (S754_finite false m e) = S754_zero false)
    by (apply DCFacts.assessed_value_below; trivial).
  split; [ exact Ha | ].
  rewrite (DCFacts.ptax_washington_dc_dispatch q _ Hv Hfirst).
  rewrite (DCFacts.washington_dc_returns _ _ Hnz), Ha, PtaxFacts.c_0_0085_eq.
  reflexivity.
Qed.

Lemma ptax_washington_dc_below_exemption_witness :
  let q := [ ("address", "Washington, DC"); ("value", "50000") ] in
  let v := S754_finite false 6871947673600000 (-37) in
  Py.float (getattr q "value") = Some v /\ in_range v /\
  F64.leb v c_73350 = true /\
  FirstUpperPair (getattr q "address") "DC" /\
  GET q =
    (Return [ ("property_tax_amount", Str "0.00");
              ("property_tax_effective_rate", Str "0.00000");
              ("information",
               Str "Based on DC-wide property tax rate after application of homestead exemption") ],
     {| status := 200 |}).
Proof.
  intros q v.
  assert (Hf : Py.float (getattr q "value") = Some v) by (vm_compute; reflexivity).
  assert (Hr : in_range v) by (split; vm_compute; reflexivity).
  assert (Hle : F64.leb v c_73350 = true) by (vm_compute; reflexivity).
  assert (H1 : FirstUpperPair (getattr q "address") "DC")
    by (apply TextFacts.re_search_AZ2_some; vm_compute; reflexivity).
  split; [ exact Hf | split; [ exact Hr | split; [ exact Hle | split; [ exact H1 | ] ] ] ].
  exact (proj2 (ptax_washington_dc_below_exemption q v Hf Hr Hle H1)).
Defined.

(** X8.  Washington DC, any value in range: on a request whose value parses
    to a [v] with 1000 <= v <= 1e12 and whose address has DC as its first
    upper-case pair, the handler answers 200 with the amount
    [max(v - 73350, 0) * 0.0085] written with two decimals and the rate
    [amount / v] written with five.  Both numbers are finite and not
    negative, so each string is the unsigned numeral nearest to its number:
    never "nan", "inf" or a minus sign. *)
Theorem ptax_washington_dc (q : FormsDict) (v : F64.float) :
  Py.float (getattr q "value") = Some v ->
  in_range v ->
  FirstUpperPair (getattr q "address") "DC" ->
  let amount := F64.mul (assessed_value v) c_0_0085 in
  let rate := F64.div amount v in
  GET q =
    (Return [ ("property_tax_amount", Str (Py.format_f 2 amount));
              ("property_tax_effective_rate", Str (Py.format_f 5 rate));
              ("information",
               Str "Based on DC-wide property tax rate after application of homestead exemption") ],
     {| status := 200 |}) /\
  unsigned_numeral 2 amount (Py.format_f 2 amount) /\
  unsigned_numeral 5 rate (Py.format_f 5 rate).
Proof.
  intros Hf Hr Hfirst amount rate.
  assert (Hv : validated q v) by (split; [ exact Hf | apply PtaxFacts.in_range_passes, Hr ]).
  pose proof (PyFacts.float_small _ _ Hf) as Hs.
  pose proof (PtaxFacts.passes_range_check_nonzero v (proj2 Hv)) as Hnz.
  destruct (DCFacts.dc_amount_and_rate v Hr Hs) as (Hfa & Hsa & Hfr & Hsr).
  split; [ | split ].
  - rewrite (DCFacts.ptax_washington_dc_dispatch q _ Hv Hfirst).
    rewrite (DCFacts.washington_dc_returns _ _ Hnz); reflexivity.
  - apply DispatchFacts.format_f_unsigned; assumption.
  - apply DispatchFacts.format_f_unsigned; assumption.
Qed.

Lemma ptax_washington_dc_witness :
  let q := [ ("address", "Georgetown, Washington, DC"); ("value", "250000") ] in
  let v := S754_finite false 8589934592000000 (-35) in
  Py.float (getattr q "value") = Some v /\ in_range v /\
  FirstUpperPair (getattr q "address") "DC" /\
  GET q =
    (Return [ ("property_tax_amount", Str "1501.53");
              ("property_tax_effective_rate", Str "0.00601");
              ("information",
               Str "Based on DC-wide property tax rate after application of homestead exemption") ],
     {| status := 200 |}).
Proof.
  intros q v.
  assert (Hf : Py.float (getattr q "value") = Some v) by (vm_compute; reflexivity).
  assert (Hr : in_range v) by (split; vm_compute; reflexivity).
  assert (H1 : FirstUpperPair (getattr q "address") "DC")
    by (apply TextFacts.re_search_AZ2_some; vm_compute; reflexivity).
  split; [ exact Hf | split; [ exact Hr | split; [ exact H1 | ] ] ].
  rewrite (proj1 (ptax_washington_dc q v Hf Hr H1)).
  vm_compute; reflexivity.
Defined.

(** X9.  No zero, no negative number and no infinity reaches a calculator:
    a value that [float()] reads as one of these is answered 400 "Value out
    of range". *)
Theorem ptax_rejects_zero_negative_infinite (q : FormsDict) (v : F64.float) :
  Py.float (getattr q "value") = Some v ->
  F64.eqb v c_0 = true \/ F64.has_sign true v \/
  (F64.is_finite v = false /\ F64.is_nan v = false) ->
  GET q = (Return (error "Value out of range"), {| status := 400 |}).
Proof.
  intros Hf Hv.
  apply (PtaxFacts.ptax_out_of_range q v Hf).
  unfold out_of_range, F64.gtb; rewrite PtaxFacts.c_1e3_eq, PtaxFacts.c_1e12_eq.
  destruct Hv as [ H0 | [ Hs | [ Hfin Hnan ] ] ].
  - left; destruct v as [ s | [ | ] | | [ | ] m e ]; try discriminate H0; reflexivity.
  - left; destruct v as [ s | s | | s m e ]; simpl in Hs; try tauto; subst s; reflexivity.
  - destruct v as [ s | [ | ] | | s m e ]; try discriminate;
      [ left | right ]; reflexivity.
Qed.

Lemma ptax_rejects_zero_negative_infinite_witness :
  let q := [ ("address", "Denver, CO"); ("value", "-250000") ] in
  let v := S754_finite true 8589934592000000 (-35) in
  Py.float (getattr q "value") = Some v /\ F64.has_sign true v /\
  GET q = (Return (error "Value out of range"), {| status := 400 |}).
Proof.
  intros q v.
  assert (Hf : Py.float (getattr q "value") = Some v) by (vm_compute; reflexivity).
  assert (Hs : F64.has_sign true v) by reflexivity.
  split; [ exact Hf | split; [ exact Hs | ] ].
  apply (ptax_rejects_zero_negative_infinite q v Hf); right; left; exact Hs.
Defined.
